(** * user-storage-helper: the structured accessor over Web Storage

    A shallow embedding of [src/index.ts] (and of its untyped twin
    [src/index.js]): the five operations [get], [set], [remove], [clear] and
    [chain] of [StorageUtil], the precondition check [ensureParams], and the
    parts of the host they call: the two [Storage] objects of [window],
    [JSON.parse] / [JSON.stringify], and property read, assignment and [delete]
    on the value that [JSON.parse] returns.

    Both source files are ES modules (they end in [export default]), so they
    are strict-mode code: an assignment to a property of a primitive throws a
    [TypeError], and [this] at module level, which is what an arrow function
    sees, is [undefined]. *)

From Stdlib Require Import String Ascii List ZArith NArith Lia Bool.
From Stdlib Require Import Decimal DecimalString DecimalFacts DecimalPos DecimalN DecimalZ.
From stdpp Require Import gmap strings.
Import ListNotations.

Set Warnings "-register-all".

(** ** JSON data *)

(** A Number of the host, which is an IEEE double. A finite number other
    than the negative zero is represented by the text that the host prints
    for it ([Number::toString], for instance [1.5], [-7], [1e+21]): the host
    prints two different numbers differently, and reads the number back from
    what it printed. The negative zero, the infinities and [NaN] are the
    numbers that [JSON.stringify] does not write as they are: it prints the
    first as [0] and the others as [null]. *)
Inductive number : Type :=
| Finite (repr : string)
| NegativeZero
| PositiveInfinity
| NegativeInfinity
| NotANumber.

(** An integer of the program text, such as the [123] of the README: up to
    2^53 in magnitude the host holds an integer exactly and prints it by its
    decimal digits. The notation is not meant for others, which are no
    integers of the host. *)
Definition integer (n : Z) : number :=
  if (Z.abs n <=? 9007199254740992)%Z
  then Finite (NilEmpty.string_of_int (Z.to_int n))
  else NotANumber.

Coercion integer : Z >-> number.

(** The values that [JSON.parse] produces and that [JSON.stringify] prints.
    A string is the sequence of its UTF-16 code units, each written as the
    bytes of its UTF-8 form (a character outside the Basic Multilingual Plane
    is its two surrogates, three bytes each), so that every JavaScript
    string, also one with a lone surrogate, is a string here; an object is
    the list of its own properties in the order in which the engine
    enumerates them, which is the order in which [JSON.stringify] prints
    them. *)
Inductive json : Type :=
| JNull
| JBool (b : bool)
| JNum (x : number)
| JStr (s : string)
| JArr (items : list json)
| JObj (fields : list (string * json)).

Arguments JNum x%_Z.

(** What an expression of the program can evaluate to when it reads a
    property: [undefined], JSON data, or an object of the host that is not
    data (a built-in function or prototype object, named by its path). *)
Inductive jsval : Type :=
| JUndefined
| JData (j : json)
| JBuiltin (path : string).

(** A canonical array index: the decimal text, without a leading zero, of
    an integer below 2^32 - 1. Among the property names only these are
    ordered by their value. *)
Definition array_index (k : string) : option nat :=
  match NilEmpty.uint_of_string k with
  | Some d =>
      if uint_beq (unorm d) d && (N.of_uint d <? 4294967295)%N
      then Some (N.to_nat (N.of_uint d))
      else None
  | None => None
  end.

(** ** Number literals *)

(** The number of the JSON grammar: an optional minus sign, an integer part
    that is a single zero or does not start with zero, an optional fraction
    and an optional exponent. [scan] splits a text into the longest such
    literal at its front and the rest. *)
Module Literal.

Definition is_digit (c : ascii) : bool :=
  (48 <=? N_of_ascii c)%N && (N_of_ascii c <=? 57)%N.

Fixpoint digits (s : string) : string * string :=
  match s with
  | EmptyString => (EmptyString, EmptyString)
  | String c rest =>
      if is_digit c then let (ds, rest') := digits rest in (String c ds, rest')
      else (EmptyString, s)
  end.

Definition minus (s : string) : string * string :=
  match s with
  | String c rest => if Ascii.eqb c "-" then (String c EmptyString, rest) else (EmptyString, s)
  | EmptyString => (EmptyString, s)
  end.

Definition int (s : string) : option (string * string) :=
  let (ds, rest) := digits s in
  match ds with
  | EmptyString => None
  | String c EmptyString => Some (ds, rest)
  | String c (String _ _) => if Ascii.eqb c "0" then None else Some (ds, rest)
  end.

Definition frac (s : string) : option (string * string) :=
  match s with
  | String c rest =>
      if Ascii.eqb c "." then
        let (ds, rest') := digits rest in
        match ds with
        | EmptyString => None
        | String _ _ => Some (String c ds, rest')
        end
      else Some (EmptyString, s)
  | EmptyString => Some (EmptyString, s)
  end.

Definition exp_sign (s : string) : string * string :=
  match s with
  | String c rest =>
      if Ascii.eqb c "+" || Ascii.eqb c "-" then (String c EmptyString, rest)
      else (EmptyString, s)
  | EmptyString => (EmptyString, s)
  end.

Definition exp (s : string) : option (string * string) :=
  match s with
  | String c rest =>
      if Ascii.eqb c "e" || Ascii.eqb c "E" then
        let (sg, rest1) := exp_sign rest in
        let (ds, rest') := digits rest1 in
        match ds with
        | EmptyString => None
        | String _ _ => Some (String c (sg +:+ ds), rest')
        end
      else Some (EmptyString, s)
  | EmptyString => Some (EmptyString, s)
  end.

Definition scan (s : string) : option (string * string) :=
  let (sg, s1) := minus s in
  match int s1 with
  | None => None
  | Some (i, s2) =>
      match frac s2 with
      | None => None
      | Some (f, s3) =>
          match exp s3 with
          | None => None
          | Some (e, s4) => Some (sg +:+ i +:+ f +:+ e, s4)
          end
      end
  end.

(** The whole text is one literal. *)
Definition literal (s : string) : bool :=
  match scan s with
  | Some (lit, EmptyString) => String.eqb lit s
  | _ => false
  end.

End Literal.

(** ** The host *)

(** The built-in objects that a property access can reach, and the reading
    of numbers, are the host's, not the program's: what the prototype chain
    of each kind of value holds under a name; the own properties of a String
    value ([length] and its indices, which count UTF-16 code units); the
    conversion that an assignment to the [length] of an array applies to the
    assigned value ([Some n] when [ToUint32] and [ToNumber] of it agree on
    [n]); and [Number(text)], the number that the host reads from a numeric
    text, which [JSON.parse] applies to each number literal: the nearest
    double, an infinity beyond the range of the doubles, the negative zero
    for a negative literal that rounds to zero, [NaN] for a text that is no
    number.

    Two laws of [Number::toString] are all that is used of the reading of
    numbers: what the host prints for a finite number is a literal of the
    JSON grammar from which it reads that number back, and zero is printed
    as [0]. *)
Inductive kind : Type := KObject | KArray | KString | KNumber | KBoolean.

Record Host : Type := {
  inherited : kind -> string -> jsval;
  string_own : string -> string -> option json;
  to_length : option json -> option nat;
  number_of : string -> number;
  number_of_printed : forall text repr,
    number_of text = Finite repr ->
    Literal.literal repr = true /\ number_of repr = Finite repr;
  number_of_zero : number_of "0" = Finite "0"
}.

Module Json.

Section Induction.
Variable P : json -> Prop.
Hypothesis Hnull : P JNull.
Hypothesis Hbool : forall b, P (JBool b).
Hypothesis Hnum : forall n, P (JNum n).
Hypothesis Hstr : forall s, P (JStr s).
Hypothesis Harr : forall items, Forall P items -> P (JArr items).
Hypothesis Hobj : forall fields, Forall (fun kv => P (snd kv)) fields -> P (JObj fields).

Fixpoint nested_ind (j : json) : P j :=
  match j with
  | JNull => Hnull
  | JBool b => Hbool b
  | JNum n => Hnum n
  | JStr s => Hstr s
  | JArr items =>
      Harr items
        ((fix go (l : list json) : Forall P l :=
            match l with
            | [] => @List.Forall_nil _ _
            | x :: l' => @List.Forall_cons _ _ x l' (nested_ind x) (go l')
            end) items)
  | JObj fields =>
      Hobj fields
        ((fix go (l : list (string * json)) : Forall (fun kv => P (snd kv)) l :=
            match l with
            | [] => @List.Forall_nil _ _
            | kv :: l' => @List.Forall_cons _ _ kv l' (nested_ind (snd kv)) (go l')
            end) fields)
  end.
End Induction.

(** Own-property lookup, update and removal on the property list. The list
    is in the order in which the engine enumerates the properties: the array
    indices first, in ascending order, then the other names in the order of
    their creation. A write to an existing property keeps its place; a new
    property is placed among the indices by its value, or else at the end. *)
Fixpoint lookup (k : string) (fields : list (string * json)) : option json :=
  match fields with
  | [] => None
  | (k', v) :: rest => if String.eqb k k' then Some v else lookup k rest
  end.

Fixpoint replace (k : string) (v : json) (fields : list (string * json))
  : list (string * json) :=
  match fields with
  | [] => []
  | (k', v') :: rest =>
      if String.eqb k k' then (k', v) :: rest else (k', v') :: replace k v rest
  end.

Fixpoint place (i : nat) (k : string) (v : json) (fields : list (string * json))
  : list (string * json) :=
  match fields with
  | [] => [(k, v)]
  | (k', v') :: rest =>
      match array_index k' with
      | Some i' => if i <? i' then (k, v) :: fields else (k', v') :: place i k v rest
      | None => (k, v) :: fields
      end
  end.

Definition update (k : string) (v : json) (fields : list (string * json))
  : list (string * json) :=
  match lookup k fields with
  | Some _ => replace k v fields
  | None =>
      match array_index k with
      | Some i => place i k v fields
      | None => fields ++ [(k, v)]
      end
  end.

Fixpoint erase (k : string) (fields : list (string * json)) : list (string * json) :=
  match fields with
  | [] => []
  | (k', v') :: rest =>
      if String.eqb k k' then erase k rest else (k', v') :: erase k rest
  end.

(** What a JavaScript object is: at any depth the keys are pairwise
    distinct and in the order of enumeration. *)
Fixpoint distinct (ks : list string) : bool :=
  match ks with
  | [] => true
  | k :: rest => negb (existsb (String.eqb k) rest) && distinct rest
  end.

Definition may_follow (k k' : string) : bool :=
  match array_index k, array_index k' with
  | Some i, Some i' => i <? i'
  | Some _, None => true
  | None, Some _ => false
  | None, None => true
  end.

Fixpoint ordered (ks : list string) : bool :=
  match ks with
  | [] => true
  | k :: rest => forallb (may_follow k) rest && ordered rest
  end.

(** What [JSON.stringify] prints of a value and [JSON.parse] then reads:
    the negative zero becomes zero, an infinity and [NaN] become [null]. *)
Definition norm_number (x : number) : json :=
  match x with
  | Finite repr => JNum (Finite repr)
  | NegativeZero => JNum (Finite "0")
  | PositiveInfinity | NegativeInfinity | NotANumber => JNull
  end.

Fixpoint norm (j : json) : json :=
  match j with
  | JNum x => norm_number x
  | JArr items => JArr (map norm items)
  | JObj fields => JObj (map (fun kv => (fst kv, norm (snd kv))) fields)
  | _ => j
  end.

Definition norm_fields (fields : list (string * json)) : list (string * json) :=
  map (fun kv => (fst kv, norm (snd kv))) fields.

Section Values.
Variable host : Host.

(** The text of a finite number is the host's own: a literal that the host
    reads as the number that it prints so. *)
Definition printed (repr : string) : bool :=
  Literal.literal repr &&
  match number_of host repr with
  | Finite repr' => String.eqb repr' repr
  | _ => false
  end.

(** A value of the program: at any depth the finite numbers are written as
    the host prints them, and the objects are JavaScript objects. *)
Fixpoint valid (j : json) : bool :=
  match j with
  | JNum (Finite repr) => printed repr
  | JArr items => forallb valid items
  | JObj fields =>
      distinct (map fst fields) && ordered (map fst fields)
      && forallb (fun kv => valid (snd kv)) fields
  | _ => true
  end.

(** A value that JSON text holds without loss: a value of the program
    without a negative zero, an infinity or [NaN] at any depth. These are
    the values that [JSON.parse] gives back from what [JSON.stringify]
    printed. *)
Fixpoint wf (j : json) : bool :=
  match j with
  | JNum (Finite repr) => printed repr
  | JNum _ => false
  | JArr items => forallb wf items
  | JObj fields =>
      distinct (map fst fields) && ordered (map fst fields)
      && forallb (fun kv => wf (snd kv)) fields
  | _ => true
  end.

End Values.

End Json.

(** ** The JSON codec of the host *)

(** [JSON.stringify] (without indentation) and [JSON.parse] on the data
    above. The limits of an engine on the length of a string and on the
    depth of nesting, like the quota of a storage area, are not modelled. *)
Module JSON.

Definition dquote : ascii := Ascii false true false false false true false false.
Definition backslash : ascii := "\"%char.

Definition hex_digit (b0 b1 b2 b3 : bool) : ascii :=
  match b3, b2, b1, b0 with
  | false, false, false, false => "0" | false, false, false, true => "1"
  | false, false, true, false => "2" | false, false, true, true => "3"
  | false, true, false, false => "4" | false, true, false, true => "5"
  | false, true, true, false => "6" | false, true, true, true => "7"
  | true, false, false, false => "8" | true, false, false, true => "9"
  | true, false, true, false => "a" | true, false, true, true => "b"
  | true, true, false, false => "c" | true, true, false, true => "d"
  | true, true, true, false => "e" | true, true, true, true => "f"
  end%char.

(** QuoteJSONString: the two-character escapes, [\u00xx] for the other
    control characters, every other byte as it is. *)
Definition escape_char (c : ascii) : string :=
  if Ascii.eqb c dquote then String backslash (String dquote EmptyString)
  else if Ascii.eqb c backslash then String backslash (String backslash EmptyString)
  else if Ascii.eqb c "008" then String backslash "b"
  else if Ascii.eqb c "012" then String backslash "f"
  else if Ascii.eqb c "010" then String backslash "n"
  else if Ascii.eqb c "013" then String backslash "r"
  else if Ascii.eqb c "009" then String backslash "t"
  else match c with
       | Ascii b0 b1 b2 b3 b4 false false false =>
           String backslash
             (String "u" (String "0" (String "0"
                (String (hex_digit b4 false false false)
                   (String (hex_digit b0 b1 b2 b3) EmptyString)))))
       | _ => String c EmptyString
       end.

(** The three bytes of a surrogate code unit, U+D800 to U+DFFF: [Some true]
    for a leading (high) surrogate, [Some false] for a trailing (low) one. *)
Definition surrogate (c1 c2 c3 : ascii) : option bool :=
  match c2, c3 with
  | Ascii _ _ _ _ low true false true, Ascii _ _ _ _ _ _ false true =>
      if Ascii.eqb c1 "237"%char then Some (negb low) else None
  | _, _ => None
  end.

(** The escape [\udxxx] of the surrogate whose second and third bytes are
    [c2] and [c3]. *)
Definition escape_unit (c2 c3 : ascii) : string :=
  match c2, c3 with
  | Ascii x0 x1 x2 x3 x4 x5 _ _, Ascii y0 y1 y2 y3 y4 y5 _ _ =>
      String backslash
        (String "u" (String "d" (String (hex_digit x2 x3 x4 x5)
           (String (hex_digit y4 y5 x0 x1)
              (String (hex_digit y0 y1 y2 y3) EmptyString)))))
  end.

(** A surrogate that is not half of a pair is escaped (the well-formed
    [JSON.stringify] of ES2019); a leading surrogate and the trailing one
    after it are one character and are printed as they are. *)
Fixpoint escape (s : string) : string :=
  match s with
  | EmptyString => EmptyString
  | String c1 rest1 =>
      match rest1 with
      | String c2 (String c3 rest3) =>
          match surrogate c1 c2 c3 with
          | Some true =>
              match rest3 with
              | String t1 (String t2 (String t3 rest6)) =>
                  match surrogate t1 t2 t3 with
                  | Some false =>
                      String c1 (String c2 (String c3
                        (String t1 (String t2 (String t3 (escape rest6))))))
                  | _ => escape_unit c2 c3 +:+ escape rest3
                  end
              | _ => escape_unit c2 c3 +:+ escape rest3
              end
          | Some false => escape_unit c2 c3 +:+ escape rest3
          | None => escape_char c1 +:+ escape rest1
          end
      | _ => escape_char c1 +:+ escape rest1
      end
  end.

Definition quote (s : string) : string :=
  String dquote (escape s +:+ String dquote EmptyString).

Definition print_number (x : number) : string :=
  match x with
  | Finite repr => repr
  | NegativeZero => "0"
  | PositiveInfinity | NegativeInfinity | NotANumber => "null"
  end.

Fixpoint stringify (j : json) : string :=
  match j with
  | JNull => "null"
  | JBool true => "true"
  | JBool false => "false"
  | JNum x => print_number x
  | JStr s => quote s
  | JArr items =>
      "[" +:+ (fix elements (l : list json) : string :=
                match l with
                | [] => "]"
                | [x] => stringify x +:+ "]"
                | x :: l' => stringify x +:+ "," +:+ elements l'
                end) items
  | JObj fields =>
      "{" +:+ (fix members (l : list (string * json)) : string :=
                match l with
                | [] => "}"
                | [(k, v)] => quote k +:+ ":" +:+ stringify v +:+ "}"
                | (k, v) :: l' => quote k +:+ ":" +:+ stringify v +:+ "," +:+ members l'
                end) fields
  end.

(** *** JSON.parse *)

Definition is_ws (c : ascii) : bool :=
  Ascii.eqb c " " || Ascii.eqb c "009" || Ascii.eqb c "010" || Ascii.eqb c "013".

Fixpoint skip_ws (s : string) : string :=
  match s with
  | EmptyString => EmptyString
  | String c rest => if is_ws c then skip_ws rest else s
  end.

(** [expect word s] removes [word] from the front of [s]. *)
Fixpoint expect (word s : string) : option string :=
  match word with
  | EmptyString => Some s
  | String a word' =>
      match s with
      | EmptyString => None
      | String c rest => if Ascii.eqb a c then expect word' rest else None
      end
  end.

(** The value of a hexadecimal digit, in either case, from its code. *)
Definition hex_value (c : ascii) : option N :=
  let code := N_of_ascii c in
  if (48 <=? code)%N && (code <=? 57)%N then Some (code - 48)%N
  else if (97 <=? code)%N && (code <=? 102)%N then Some (code - 87)%N
  else if (65 <=? code)%N && (code <=? 70)%N then Some (code - 55)%N
  else None.

(** The bytes of one code unit: its UTF-8 form, also for a surrogate. *)
Definition encode_unit (n : N) : string :=
  if (n <? 128)%N then String (ascii_of_N n) EmptyString
  else if (n <? 2048)%N then
    String (ascii_of_N (192 + n / 64))
      (String (ascii_of_N (128 + n mod 64)) EmptyString)
  else
    String (ascii_of_N (224 + n / 4096))
      (String (ascii_of_N (128 + (n / 64) mod 64))
         (String (ascii_of_N (128 + n mod 64)) EmptyString)).

Definition unescape_u (h1 h2 h3 h4 : ascii) : option string :=
  match hex_value h1, hex_value h2, hex_value h3, hex_value h4 with
  | Some a, Some b, Some c, Some d =>
      Some (encode_unit (((a * 16 + b) * 16 + c) * 16 + d)%N)
  | _, _, _, _ => None
  end.

Definition unescape (e : ascii) : option ascii :=
  if Ascii.eqb e dquote then Some dquote
  else match e with
       | "\" => Some backslash | "/" => Some "/" | "b" => Some "008"
       | "f" => Some "012" | "n" => Some "010" | "r" => Some "013"
       | "t" => Some "009" | _ => None
       end%char.

Definition is_control (c : ascii) : bool :=
  match c with
  | Ascii _ _ _ _ _ false false false => true
  | _ => false
  end.

Definition prepend (u : string) (r : option (string * string)) : option (string * string) :=
  match r with
  | Some (str, rest) => Some (u +:+ str, rest)
  | None => None
  end.

(** The characters of a string literal, after its opening quote, up to and
    including the closing quote. *)
Fixpoint parse_chars (s : string) : option (string * string) :=
  match s with
  | EmptyString => None
  | String c rest =>
      if Ascii.eqb c dquote then Some (EmptyString, rest)
      else if Ascii.eqb c backslash then
        match rest with
        | EmptyString => None
        | String e rest' =>
            if Ascii.eqb e "u" then
              match rest' with
              | String h1 (String h2 (String h3 (String h4 rest''))) =>
                  match unescape_u h1 h2 h3 h4 with
                  | Some u => prepend u (parse_chars rest'')
                  | None => None
                  end
              | _ => None
              end
            else
              match unescape e with
              | Some c' => prepend (String c' EmptyString) (parse_chars rest')
              | None => None
              end
        end
      else if is_control c then None
      else prepend (String c EmptyString) (parse_chars rest)
  end.

(** A repeated member name keeps its first place and its last value. *)
Definition object_of (members : list (string * json)) : list (string * json) :=
  fold_left (fun fields kv => Json.update (fst kv) (snd kv) fields) members [].

Section Parse.
Variable host : Host.

(** A number literal is read as the host reads it. *)
Definition parse_number (s : string) : option (json * string) :=
  match Literal.scan s with
  | Some (lit, rest) => Some (JNum (number_of host lit), rest)
  | None => None
  end.

Fixpoint parse_value (fuel : nat) (s : string) {struct fuel} : option (json * string) :=
  match fuel with
  | O => None
  | S fuel' =>
      match skip_ws s with
      | EmptyString => None
      | String c rest =>
          if Ascii.eqb c "n" then option_map (pair JNull) (expect "ull" rest)
          else if Ascii.eqb c "t" then option_map (pair (JBool true)) (expect "rue" rest)
          else if Ascii.eqb c "f" then option_map (pair (JBool false)) (expect "alse" rest)
          else if Ascii.eqb c dquote then
            match parse_chars rest with
            | Some (str, rest') => Some (JStr str, rest')
            | None => None
            end
          else if Ascii.eqb c "[" then
            match expect "]" (skip_ws rest) with
            | Some rest' => Some (JArr [], rest')
            | None =>
                match parse_elements fuel' rest with
                | Some (items, rest') => Some (JArr items, rest')
                | None => None
                end
            end
          else if Ascii.eqb c "{" then
            match expect "}" (skip_ws rest) with
            | Some rest' => Some (JObj [], rest')
            | None =>
                match parse_members fuel' rest with
                | Some (members, rest') => Some (JObj (object_of members), rest')
                | None => None
                end
            end
          else parse_number (String c rest)
      end
  end
with parse_elements (fuel : nat) (s : string) {struct fuel} : option (list json * string) :=
  match fuel with
  | O => None
  | S fuel' =>
      match parse_value fuel' s with
      | None => None
      | Some (v, rest) =>
          match skip_ws rest with
          | EmptyString => None
          | String c rest' =>
              if Ascii.eqb c "," then
                match parse_elements fuel' rest' with
                | Some (vs, rest'') => Some (v :: vs, rest'')
                | None => None
                end
              else if Ascii.eqb c "]" then Some ([v], rest')
              else None
          end
      end
  end
with parse_members (fuel : nat) (s : string) {struct fuel}
  : option (list (string * json) * string) :=
  match fuel with
  | O => None
  | S fuel' =>
      match expect (String dquote EmptyString) (skip_ws s) with
      | None => None
      | Some s1 =>
          match parse_chars s1 with
          | None => None
          | Some (k, s2) =>
              match expect ":" (skip_ws s2) with
              | None => None
              | Some s3 =>
                  match parse_value fuel' s3 with
                  | None => None
                  | Some (v, rest) =>
                      match skip_ws rest with
                      | EmptyString => None
                      | String c rest' =>
                          if Ascii.eqb c "," then
                            match parse_members fuel' rest' with
                            | Some (ms, rest'') => Some ((k, v) :: ms, rest'')
                            | None => None
                            end
                          else if Ascii.eqb c "}" then Some ([(k, v)], rest')
                          else None
                      end
                  end
              end
          end
      end
  end.

(** The whole text is one value between optional white space. The fuel is
    the length of the text: every level of nesting reads at least one
    character of it. *)
Definition parse (text : string) : option json :=
  match parse_value (S (String.length text)) text with
  | Some (v, rest) =>
      match skip_ws rest with
      | EmptyString => Some v
      | String _ _ => None
      end
  | None => None
  end.

End Parse.

(** *** Auxiliary notions for the facts about the codec *)

(** The character after a value inside an array or an object, or the end of
    the text. *)
Definition terminated (rest : string) : bool :=
  match rest with
  | EmptyString => true
  | String c _ => Ascii.eqb c "," || Ascii.eqb c "]" || Ascii.eqb c "}"
  end.

(** The first character of a printed value decides the branch of
    [parse_value]. *)
Definition value_start (c : ascii) : bool :=
  Literal.is_digit c
  || Ascii.eqb c "n" || Ascii.eqb c "t" || Ascii.eqb c "f" || Ascii.eqb c dquote
  || Ascii.eqb c "[" || Ascii.eqb c "{" || Ascii.eqb c "-".

Definition elements : list json -> string :=
  fix elements (l : list json) : string :=
    match l with
    | [] => "]"
    | [x] => stringify x +:+ "]"
    | x :: l' => stringify x +:+ "," +:+ elements l'
    end.

Definition members : list (string * json) -> string :=
  fix members (l : list (string * json)) : string :=
    match l with
    | [] => "}"
    | [(k, v)] => quote k +:+ ":" +:+ stringify v +:+ "}"
    | (k, v) :: l' => quote k +:+ ":" +:+ stringify v +:+ "," +:+ members l'
    end.

(** What the induction proves about one value: printed in front of a
    terminated rest, it is read back, up to [Json.norm], with that rest left
    over. *)
Definition reads_back (host : Host) (v : json) : Prop :=
  Json.valid host v = true ->
  forall fuel rest,
    String.length (stringify v) < fuel -> terminated rest = true ->
    parse_value host fuel (stringify v +:+ rest) = Some (Json.norm v, rest).

End JSON.

(** ** Exceptions and results *)

(** [Error message] is what [ensureParams] throws with [new Error(...)];
    the others are the built-in errors of the host. *)
Inductive exn : Type :=
| Error (message : string)
| TypeError
| SyntaxError
| RangeError.

Inductive result (A : Type) : Type :=
| Return (a : A)
| Throw (e : exn).

Arguments Return {A} a.
Arguments Throw {A} e.

(** ** The request object *)

Inductive StorageType : Type := local | session.

(** [interface StorageProps]. A field that the caller left out, or passed as
    [undefined], is [None]. *)
Record StorageProps : Type := {
  type : option StorageType;
  name : option string;
  item : option string;
  value : option json
}.

(** Truthiness, as [!x] and [x ? a : b] and [x || y] test it. *)
Definition truthy_string (s : option string) : bool :=
  match s with
  | Some (String _ _) => true
  | _ => false
  end.

Definition truthy (v : option json) : bool :=
  match v with
  | None => false
  | Some JNull => false
  | Some (JBool b) => b
  | Some (JNum (Finite repr)) => negb (String.eqb repr "0")
  | Some (JNum NegativeZero) | Some (JNum NotANumber) => false
  | Some (JNum PositiveInfinity) | Some (JNum NegativeInfinity) => true
  | Some (JStr s) => truthy_string (Some s)
  | Some (JArr _) | Some (JObj _) => true
  end.

(** [!props[param]]: a name that is no field of the request reads as
    [undefined]. *)
Definition prop_truthy (props : StorageProps) (param : string) : bool :=
  if String.eqb param "type" then
    match type props with Some _ => true | None => false end
  else if String.eqb param "name" then truthy_string (name props)
  else if String.eqb param "item" then truthy_string (item props)
  else if String.eqb param "value" then truthy (value props)
  else false.

Definition missing (param : string) : exn := Error ("缺少参数: " +:+ param).

(** [ensureParams]: [forEach] stops at the first parameter that is falsy. *)
Fixpoint ensureParams (requiredParams : list string) (props : StorageProps) : result unit :=
  match requiredParams with
  | [] => Return tt
  | param :: rest =>
      if prop_truthy props param then ensureParams rest props
      else Throw (missing param)
  end.

(** [ToString] of a key argument: [undefined] becomes the string
    [undefined]. *)
Definition key_of (k : option string) : string :=
  match k with
  | Some s => s
  | None => "undefined"
  end.

(** ** The window: two storage areas and the record of the calls made on them *)

(** A storage area maps keys to texts. [getItem] gives [null] (here [None])
    for a key without entry; a write never fails (no quota is modelled). *)

Inductive call : Type :=
| GetItem (area : StorageType) (key : string)
| SetItem (area : StorageType) (key text : string)
| RemoveItem (area : StorageType) (key : string)
| ClearAll (area : StorageType).

Record window : Type := {
  localStorage : gmap string string;
  sessionStorage : gmap string string;
  calls : list call
}.

Definition area (t : StorageType) (w : window) : gmap string string :=
  match t with
  | local => localStorage w
  | session => sessionStorage w
  end.

Definition with_area (t : StorageType) (f : gmap string string -> gmap string string)
    (c : call) (w : window) : window :=
  match t with
  | local => {| localStorage := f (localStorage w);
                sessionStorage := sessionStorage w;
                calls := calls w ++ [c] |}
  | session => {| localStorage := localStorage w;
                  sessionStorage := f (sessionStorage w);
                  calls := calls w ++ [c] |}
  end.

(** A computation of the program: it runs in a window, changes it, and
    returns or throws. *)
Definition js (A : Type) : Type := window -> result A * window.

Definition ret {A} (a : A) : js A := fun w => (Return a, w).
Definition throw {A} (e : exn) : js A := fun w => (Throw e, w).
Definition lift {A} (r : result A) : js A := fun w => (r, w).
Definition bind {A B} (m : js A) (k : A -> js B) : js B :=
  fun w => match m w with
           | (Return a, w') => k a w'
           | (Throw e, w') => (Throw e, w')
           end.

Notation "x <- m ;; k" := (bind m (fun x => k))
  (at level 100, m at next level, right associativity).
Notation "m ;;; k" := (bind m (fun _ => k))
  (at level 100, right associativity).

(** [window[type + 'Storage']]: the storage object, or [undefined] when
    [type] is missing (no property of [window] is called
    [undefinedStorage]). A method call on [undefined] throws. *)
Definition window_storage (type : option StorageType) : option StorageType := type.

Definition getItem (storage : option StorageType) (key : string) : js (option string) :=
  match storage with
  | None => throw TypeError
  | Some t => fun w => (Return (area t w !! key), with_area t id (GetItem t key) w)
  end.

Definition setItem (storage : option StorageType) (key text : string) : js unit :=
  match storage with
  | None => throw TypeError
  | Some t => fun w => (Return tt, with_area t (insert key text) (SetItem t key text) w)
  end.

Definition removeItem (storage : option StorageType) (key : string) : js unit :=
  match storage with
  | None => throw TypeError
  | Some t => fun w => (Return tt, with_area t (delete key) (RemoveItem t key) w)
  end.

Definition storage_clear (storage : option StorageType) : js unit :=
  match storage with
  | None => throw TypeError
  | Some t => fun w => (Return tt, with_area t (fun _ => ∅) (ClearAll t) w)
  end.

(** [text || '{}']: [null] and the empty string are falsy. *)
Definition or_default (text : option string) : string :=
  match text with
  | Some (String c rest) => String c rest
  | _ => "{}"
  end.

(** [JSON.parse] throws a [SyntaxError] on a text it does not accept. *)
Definition JSON_parse (host : Host) (text : string) : result json :=
  match JSON.parse host text with
  | Some v => Return v
  | None => Throw SyntaxError
  end.

(** [JSON.stringify(x)] as [setItem] stores it: [undefined] is stored as the
    string [undefined]. *)
Definition JSON_stringify (x : option json) : string :=
  match x with
  | Some v => JSON.stringify v
  | None => "undefined"
  end.

(** ** Property access on the decoded Record *)

(** An array as [JSON.stringify] prints it after [items[i] = x] or after its
    [length] was set to [n]: a hole prints as [null]. *)
Definition store (i : nat) (x : json) (items : list json) : list json :=
  if i <? length items then <[i := x]> items
  else items ++ replicate (i - length items) JNull ++ [x].

Definition resize (n : nat) (items : list json) : list json :=
  take n items ++ replicate (n - length items) JNull.

Definition element (v : option json) : json :=
  match v with
  | Some x => x
  | None => JNull
  end.

Section Properties.
Variable host : Host.

(** [storedData[k]] *)
Definition get_prop (storedData : json) (k : string) : result jsval :=
  match storedData with
  | JNull => Throw TypeError
  | JBool _ => Return (inherited host KBoolean k)
  | JNum _ => Return (inherited host KNumber k)
  | JStr s =>
      match string_own host s k with
      | Some v => Return (JData v)
      | None => Return (inherited host KString k)
      end
  | JArr items =>
      if String.eqb k "length" then Return (JData (JNum (Z.of_nat (length items))))
      else match array_index k with
           | Some i =>
               match items !! i with
               | Some v => Return (JData v)
               | None => Return (inherited host KArray k)
               end
           | None => Return (inherited host KArray k)
           end
  | JObj fields =>
      match Json.lookup k fields with
      | Some v => Return (JData v)
      | None => Return (inherited host KObject k)
      end
  end.

(** [storedData[k] = v], giving the Record as [JSON.stringify] will print
    it. On [null] the assignment throws; on another primitive it throws
    because the code is strict, except under the name [__proto__], whose
    setter on [Object.prototype] ignores a receiver that is no object. On an
    array only an index or [length] changes what is printed. On an object the
    name [__proto__], unless it is an own property, reaches that same setter
    and adds no property; a property set to [undefined] is not printed. *)
Definition set_prop (storedData : json) (k : string) (v : option json) : result json :=
  match storedData with
  | JNull => Throw TypeError
  | JBool _ | JNum _ | JStr _ =>
      if String.eqb k "__proto__" then Return storedData else Throw TypeError
  | JArr items =>
      if String.eqb k "length" then
        match to_length host v with
        | Some n => Return (JArr (resize n items))
        | None => Throw RangeError
        end
      else match array_index k with
           | Some i => Return (JArr (store i (element v) items))
           | None => Return storedData
           end
  | JObj fields =>
      match Json.lookup k fields, v with
      | Some _, Some x => Return (JObj (Json.update k x fields))
      | Some _, None => Return (JObj (Json.erase k fields))
      | None, Some x =>
          if String.eqb k "__proto__" then Return storedData
          else Return (JObj (Json.update k x fields))
      | None, None => Return storedData
      end
  end.

(** [delete storedData[k]], again as the Record will be printed. In strict
    code, deleting a property that cannot be deleted ([length], a character
    of a string) throws. *)
Definition delete_prop (storedData : json) (k : string) : result json :=
  match storedData with
  | JNull => Throw TypeError
  | JBool _ | JNum _ => Return storedData
  | JStr s =>
      match string_own host s k with
      | Some _ => Throw TypeError
      | None => Return storedData
      end
  | JArr items =>
      if String.eqb k "length" then Throw TypeError
      else match array_index k with
           | Some i =>
               if i <? length items then Return (JArr (<[i := JNull]> items))
               else Return storedData
           | None => Return storedData
           end
  | JObj fields => Return (JObj (Json.erase k fields))
  end.

End Properties.

(** ** StorageUtil *)

Section StorageUtil.
Variable host : Host.

Definition get (props : StorageProps) : js jsval :=
  let '{| type := type; name := name; item := item |} := props in
  lift (ensureParams ["type"; "name"]
          {| type := type; name := name; item := None; value := None |}) ;;;
  let storage := window_storage type in
  text <- getItem storage (key_of name) ;;
  storedData <- lift (JSON_parse host (or_default text)) ;;
  if truthy_string item then lift (get_prop host storedData (key_of item))
  else ret (JData storedData).

Definition set (props : StorageProps) : js unit :=
  let '{| type := type; name := name; item := item; value := value |} := props in
  lift (ensureParams ["type"; "name"; "value"]
          {| type := type; name := name; item := None; value := value |}) ;;;
  let storage := window_storage type in
  text <- getItem storage (key_of name) ;;
  storedData <- lift (JSON_parse host (or_default text)) ;;
  storedData <- (if truthy_string item
                 then r <- lift (set_prop host storedData (key_of item) value) ;; ret (Some r)
                 else ret value) ;;
  setItem storage (key_of name) (JSON_stringify storedData).

Definition remove (props : StorageProps) : js unit :=
  let '{| type := type; name := name; item := item |} := props in
  lift (ensureParams ["type"; "name"]
          {| type := type; name := name; item := None; value := None |}) ;;;
  let storage := window_storage type in
  if truthy_string item then
    text <- getItem storage (key_of name) ;;
    storedData <- lift (JSON_parse host (or_default text)) ;;
    storedData <- lift (delete_prop host storedData (key_of item)) ;;
    setItem storage (key_of name) (JSON_stringify (Some storedData))
  else removeItem storage (key_of name).

(** [clear] takes an object with the one field [type]. *)
Definition clear (type : option StorageType) : js unit :=
  lift (ensureParams ["type"]
          {| type := type; name := None; item := None; value := None |}) ;;;
  let storage := window_storage type in
  storage_clear storage.

(** *** chain *)

(** The object that [chain] returns closes over [storage] and [name]; its
    four methods are the functions below, applied to it. *)
Record accessor : Type := {
  storage : option StorageType;
  bound_name : option string
}.

Definition chain (props : StorageProps) : accessor :=
  {| storage := window_storage (type props); bound_name := name props |}.

(** The methods are arrow functions: their [this] is the [this] of the
    module, [undefined], whatever object they are called on. *)
Definition this : option accessor := None.

Definition chain_get (c : accessor) (item : option string) : js jsval :=
  text <- getItem (storage c) (key_of (bound_name c)) ;;
  storedData <- lift (JSON_parse host (or_default text)) ;;
  if truthy_string item then lift (get_prop host storedData (key_of item))
  else ret (JData storedData).

Definition chain_set (c : accessor) (item : option string) (value : option json)
  : js (option accessor) :=
  text <- getItem (storage c) (key_of (bound_name c)) ;;
  storedData <- lift (JSON_parse host (or_default text)) ;;
  storedData <- lift (set_prop host storedData (key_of item) value) ;;
  setItem (storage c) (key_of (bound_name c)) (JSON_stringify (Some storedData)) ;;;
  ret this.

Definition chain_remove (c : accessor) (item : option string) : js (option accessor) :=
  text <- getItem (storage c) (key_of (bound_name c)) ;;
  storedData <- lift (JSON_parse host (or_default text)) ;;
  storedData <- lift (delete_prop host storedData (key_of item)) ;;
  setItem (storage c) (key_of (bound_name c)) (JSON_stringify (Some storedData)) ;;;
  ret this.

Definition chain_clear (c : accessor) : js (option accessor) :=
  removeItem (storage c) (key_of (bound_name c)) ;;;
  ret this.

(** A method call [x.m(...)] on what a previous call returned: on
    [undefined] it throws. *)
Definition on {A} (x : option accessor) (method : accessor -> js A) : js A :=
  match x with
  | Some c => method c
  | None => throw TypeError
  end.

End StorageUtil.

(** ** Notions used to state the properties *)

(** A request that names its namespace and its entry. *)
Definition request (t : StorageType) (n : string) (i : option string) (v : option json)
  : StorageProps :=
  {| type := Some t; name := Some n; item := i; value := v |}.

Definition other (t : StorageType) : StorageType :=
  match t with
  | local => session
  | session => local
  end.

(** The Record under a name, as every operation decodes it:
    [JSON.parse(storage.getItem(name) || '{}')]. *)
Definition decoded (host : Host) (t : StorageType) (n : string) (w : window)
  : option json :=
  JSON.parse host (or_default (area t w !! n)).

Definition outcome {A} (m : js A) (w : window) : result A := fst (m w).
Definition after {A} (m : js A) (w : window) : window := snd (m w).

(** The window after the read that [get], [set] and an item-qualified
    [remove] start with, and after the write that ends [set] and that
    [remove]. *)
Definition read (t : StorageType) (n : string) (w : window) : window :=
  with_area t id (GetItem t n) w.

Definition written (t : StorageType) (n text : string) (w : window) : window :=
  with_area t (insert n text) (SetItem t n text) (read t n w).

Definition primitive (r : json) : bool :=
  match r with
  | JBool _ | JNum _ | JStr _ => true
  | _ => false
  end.

Definition kind_of (r : json) : option kind :=
  match r with
  | JNull => None
  | JBool _ => Some KBoolean
  | JNum _ => Some KNumber
  | JStr _ => Some KString
  | JArr _ => Some KArray
  | JObj _ => Some KObject
  end.

(** Whether [k] is an own property of the Record. *)
Definition has_own (host : Host) (r : json) (k : string) : bool :=
  match r with
  | JObj fields => match Json.lookup k fields with Some _ => true | None => false end
  | JArr items =>
      String.eqb k "length" ||
      match array_index k with
      | Some i => i <? length items
      | None => false
      end
  | JStr s => match string_own host s k with Some _ => true | None => false end
  | _ => false
  end.

(** [k] is a property of the Record neither of its own nor by inheritance;
    [null] has no properties at all and is not a Record in this sense. *)
Definition lacks (host : Host) (r : json) (k : string) : Prop :=
  has_own host r k = false /\
  exists kd, kind_of r = Some kd /\ inherited host kd k = JUndefined.

Definition empty_window : window :=
  {| localStorage := ∅; sessionStorage := ∅; calls := [] |}.

(** A window whose only entry is [text] under [n] in the area [t]. *)
Definition entry (t : StorageType) (n text : string) : window :=
  match t with
  | local => {| localStorage := {[ n := text ]}; sessionStorage := ∅; calls := [] |}
  | session => {| localStorage := ∅; sessionStorage := {[ n := text ]}; calls := [] |}
  end.

(** ** IEEE doubles, for the host of the examples *)

(** [Number(text)] on the literals of the JSON grammar, computed exactly:
    the double nearest to the decimal value (ties to the even significand),
    and [Number::toString] of a double: the shortest decimal digits from
    which the double is read back, laid out with or without an exponent as
    the host does. *)
Module Double.
Local Open Scope Z_scope.

(** A finite double other than zero is [m * 2^e] with [2^52 <= m < 2^53]
    and [-1074 <= e <= 971], or with [m < 2^52] and [e = -1074]. *)
Inductive reading : Type :=
| Zero (negative : bool)
| Infinite (negative : bool)
| Double (negative : bool) (m e : Z).

Fixpoint value_of_digits (acc : Z) (s : string) : Z :=
  match s with
  | EmptyString => acc
  | String c rest => value_of_digits (acc * 10 + (Z.of_N (N_of_ascii c) - 48)) rest
  end.

(** The sign, the coefficient and the decimal exponent of a literal. *)
Definition decimal_of (text : string) : option (bool * Z * Z) :=
  let (sg, s1) := Literal.minus text in
  match Literal.int s1 with
  | None => None
  | Some (i, s2) =>
      match Literal.frac s2 with
      | None => None
      | Some (f, s3) =>
          match Literal.exp s3 with
          | None => None
          | Some (e, _) =>
              let fd := match f with String _ ds => ds | EmptyString => EmptyString end in
              let ex :=
                match e with
                | String _ rest =>
                    let (sg', ds) := Literal.exp_sign rest in
                    if String.eqb sg' "-" then - value_of_digits 0 ds
                    else value_of_digits 0 ds
                | EmptyString => 0
                end in
              Some (negb (String.eqb sg EmptyString),
                    value_of_digits 0 (i +:+ fd),
                    ex - Z.of_nat (String.length fd))
          end
      end
  end.

(** The integer nearest to [a / b], the even one of two that are equally
    near. *)
Definition round_div (a b : Z) : Z :=
  let q := a / b in
  let r := a mod b in
  if 2 * r <? b then q
  else if b <? 2 * r then q + 1
  else if Z.even q then q else q + 1.

(** [num / den * 2^(-e)] as a fraction. *)
Definition scaled (num den e : Z) : Z * Z :=
  if e <? 0 then (num * 2 ^ (- e), den) else (num, den * 2 ^ e).

(** The double nearest to [num / den], for positive [num] and [den];
    [None] beyond the largest double. *)
Definition nearest (num den : Z) : option (Z * Z) :=
  let e0 := Z.log2 num - Z.log2 den - 52 in
  let q0 := let (a, b) := scaled num den e0 in a / b in
  let e1 := if q0 <? 2 ^ 52 then e0 - 1 else if 2 ^ 53 <=? q0 then e0 + 1 else e0 in
  let e := Z.max e1 (-1074) in
  let m := let (a, b) := scaled num den e in round_div a b in
  let (m', e') := if m =? 2 ^ 53 then (2 ^ 52, e + 1) else (m, e) in
  if 971 <? e' then None else Some (m', e').

(** [c * 10^x] as a fraction. *)
Definition fraction (c x : Z) : Z * Z :=
  if x <? 0 then (c, 10 ^ (- x)) else (c * 10 ^ x, 1).

Definition size (c : Z) : Z := Z.of_nat (nb_digits (N.to_uint (Z.to_N c))).

(** The double that a decimal number is read as. A number that is out of
    the range of the doubles by its length alone is not computed. *)
Definition read_decimal (negative : bool) (c x : Z) : reading :=
  if c =? 0 then Zero negative
  else if 310 <? size c + x then Infinite negative
  else if size c + x <? -330 then Zero negative
  else
    let (num, den) := fraction c x in
    match nearest num den with
    | None => Infinite negative
    | Some (m, e) => if m =? 0 then Zero negative else Double negative m e
    end.

Definition read (text : string) : option reading :=
  match decimal_of text with
  | Some (negative, c, x) => Some (read_decimal negative c x)
  | None => None
  end.

Definition same (a b : reading) : bool :=
  match a, b with
  | Zero n, Zero n' | Infinite n, Infinite n' => Bool.eqb n n'
  | Double n m e, Double n' m' e' => Bool.eqb n n' && (m =? m') && (e =? e')
  | _, _ => false
  end.

(** [10^n <= num / den] *)
Definition at_least (num den n : Z) : bool :=
  if n <? 0 then den <=? num * 10 ^ (- n) else 10 ^ n * den <=? num.

(** The [n] with [10^(n-1) <= num / den < 10^n], looked for around an
    estimate from the binary logarithms. *)
Definition magnitude (num den : Z) : Z :=
  let est := (Z.log2 num - Z.log2 den) * 30103 / 100000 in
  let fits n := at_least num den (n - 1) && negb (at_least num den n) in
  if fits (est - 1) then est - 1
  else if fits est then est
  else if fits (est + 1) then est + 1
  else if fits (est + 2) then est + 2
  else est + 3.

Fixpoint strip_zeros (fuel : nat) (s : Z) : Z :=
  match fuel with
  | O => s
  | S fuel' => if (s mod 10 =? 0) && negb (s =? 0) then strip_zeros fuel' (s / 10) else s
  end.

(** The digits of [k] places nearest to the double, if the double is read
    back from them, and the place of the decimal point. *)
Definition digits_at (m e num den n k : Z) : option (Z * Z) :=
  let (a, b) := if k - n <? 0 then (num, den * 10 ^ (n - k)) else (num * 10 ^ (k - n), den) in
  let lo := a / b in
  let s1 := round_div a b in
  let s2 := if s1 =? lo then lo + 1 else lo in
  let reads s :=
    (0 <? s) &&
    match read_decimal false s (n - k) with
    | Double _ m' e' => (m =? m') && (e =? e')
    | _ => false
    end in
  let found s := Some (strip_zeros 20 s, n + (size s - k)) in
  if reads s1 then found s1 else if reads s2 then found s2 else None.

Fixpoint shortest (m e num den n : Z) (k : Z) (fuel : nat) : option (Z * Z) :=
  match fuel with
  | O => None
  | S fuel' =>
      match digits_at m e num den n k with
      | Some r => Some r
      | None => shortest m e num den n (k + 1) fuel'
      end
  end.

Definition zeros (n : Z) : string :=
  string_of_list_ascii (repeat "0"%char (Z.to_nat n)).

Definition digits_text (s : Z) : string := NilEmpty.string_of_uint (N.to_uint (Z.to_N s)).

(** The layout of [Number::toString]: the digits [ds], [k] of them, of a
    number between [10^(n-1)] and [10^n]. *)
Definition layout (ds : string) (n : Z) : string :=
  let k := Z.of_nat (String.length ds) in
  if (k <=? n) && (n <=? 21) then ds +:+ zeros (n - k)
  else if (0 <? n) && (n <=? 21) then
    String.substring 0 (Z.to_nat n) ds +:+ "." +:+
    String.substring (Z.to_nat n) (Z.to_nat (k - n)) ds
  else if (-6 <? n) && (n <=? 0) then "0." +:+ zeros (- n) +:+ ds
  else
    let x := n - 1 in
    let tail := (if x <? 0 then "e-" else "e+") +:+ digits_text (Z.abs x) in
    match ds with
    | String c EmptyString => ds +:+ tail
    | String c rest => String c ("." +:+ rest) +:+ tail
    | EmptyString => EmptyString
    end.

Definition print (negative : bool) (m e : Z) : option string :=
  let (num, den) := if e <? 0 then (m, 2 ^ (- e)) else (m * 2 ^ e, 1) in
  let n := magnitude num den in
  match shortest m e num den n 1 17 with
  | Some (s, n') =>
      Some ((if negative then "-" else EmptyString) +:+ layout (digits_text s) n')
  | None => None
  end.

(** [Number(text)] for a literal of the JSON grammar. What is printed is
    accepted when it is a literal from which the same double is read. *)
Definition number_of (text : string) : number :=
  if Literal.literal text then
    match read text with
    | Some (Zero negative) => if negative then NegativeZero else Finite "0"
    | Some (Infinite negative) => if negative then NegativeInfinity else PositiveInfinity
    | Some (Double negative m e) =>
        match print negative m e with
        | Some repr =>
            if Literal.literal repr &&
               match read repr with
               | Some r => same r (Double negative m e)
               | None => false
               end
            then Finite repr else NotANumber
        | None => NotANumber
        end
    | None => NotANumber
    end
  else NotANumber.

End Double.

(** A host for the examples: every kind of value inherits the members that
    [Object.prototype] has had since ES5; a string has one code unit per byte
    (ASCII); the [length] of an array accepts a number or a boolean; and
    numbers are read and printed as doubles. *)
Definition object_prototype : list string :=
  ["constructor"; "hasOwnProperty"; "isPrototypeOf"; "propertyIsEnumerable";
   "toLocaleString"; "toString"; "valueOf"; "__proto__";
   "__defineGetter__"; "__defineSetter__"; "__lookupGetter__"; "__lookupSetter__"].

Definition example_to_length (v : option json) : option nat :=
  match v with
  | Some (JNum (Finite repr)) =>
      match NilEmpty.uint_of_string repr with
      | Some d =>
          if uint_beq (unorm d) d && (N.of_uint d <? 4294967296)%N
          then Some (N.to_nat (N.of_uint d))
          else None
      | None => None
      end
  | Some (JBool b) => Some (if b then 1 else 0)
  | _ => None
  end.

Definition example_host : Host.
Proof.
  refine {|
    inherited := fun _ k =>
      if existsb (String.eqb k) object_prototype
      then JBuiltin ("Object.prototype." +:+ k) else JUndefined;
    string_own := fun s k =>
      if String.eqb k "length" then Some (JNum (Z.of_nat (String.length s)))
      else match array_index k with
           | Some i => match String.get i s with
                       | Some c => Some (JStr (String c EmptyString))
                       | None => None
                       end
           | None => None
           end;
    to_length := example_to_length;
    number_of := Double.number_of
  |}.
  - unfold Double.number_of. intros text repr.
    destruct (Literal.literal text); [|discriminate].
    destruct (Double.read text) as [[negative|negative|negative m e]|]; try discriminate.
    + destruct negative; [discriminate|]. intros [= <-]. split; reflexivity.
    + destruct negative; discriminate.
    + destruct (Double.print negative m e) as [printed|] eqn:Hprint; [|discriminate].
      destruct (Literal.literal printed) eqn:Hlit; [|discriminate]. cbn [andb].
      destruct (Double.read printed) as [again|] eqn:Hread; [|discriminate].
      destruct (Double.same again (Double.Double negative m e)) eqn:Hsame; [|discriminate].
      intros [= <-]. split; [assumption|].
      assert (again = Double.Double negative m e) as ->.
      { destruct again as [| |negative' m' e']; try discriminate. cbn [Double.same] in Hsame.
        apply andb_prop in Hsame as [[Hn Hm]%andb_prop He].
        apply Bool.eqb_prop in Hn. apply Z.eqb_eq in Hm, He. now subst. }
      rewrite Hlit, Hread. cbv beta iota. rewrite Hprint, Hlit, Hread. cbn [andb].
      now rewrite Hsame.
  - reflexivity.
Defined.

(** * Facts *)

(** ** Property lists *)

Module JsonFacts.
Import Json.

Lemma array_index_inj k k' i :
  array_index k = Some i -> array_index k' = Some i -> k = k'.
Proof.
  unfold array_index.
  destruct (NilEmpty.uint_of_string k) as [d|] eqn:Hk; [|discriminate].
  destruct (NilEmpty.uint_of_string k') as [d'|] eqn:Hk'; [|discriminate].
  destruct (uint_beq (unorm d) d) eqn:Hd; [|discriminate].
  destruct (uint_beq (unorm d') d') eqn:Hd'; [|discriminate].
  cbn [andb]. repeat case_match; try discriminate. intros [= <-] [= Heq].
  apply internal_uint_dec_bl in Hd, Hd'. apply N2Nat.inj in Heq.
  apply DecimalN.Unsigned.of_inj in Heq. rewrite Hd, Hd' in Heq. subst d'.
  apply NilEmpty.sus in Hk, Hk'. congruence.
Qed.

Lemma distinct_NoDup ks : distinct ks = true <-> NoDup ks.
Proof.
  induction ks as [|k ks IH]; cbn [distinct].
  - split; [constructor|reflexivity].
  - rewrite andb_true_iff, negb_true_iff, IH, NoDup_cons. apply and_iff_compat_r.
    rewrite <- not_true_iff_false, existsb_exists. split.
    + intros Hno Hin. apply Hno. exists k. split; [now apply list_elem_of_In|apply String.eqb_refl].
    + intros Hno (k' & Hin & Heq). apply String.eqb_eq in Heq as <-.
      now apply Hno, list_elem_of_In.
Qed.

Lemma lookup_None k fields : lookup k fields = None <-> k ∉ map fst fields.
Proof.
  induction fields as [|[k' v'] fields IH]; cbn [lookup map fst].
  - split; [intros _; apply not_elem_of_nil|reflexivity].
  - rewrite not_elem_of_cons. destruct (String.eqb_spec k k') as [->|Hne].
    + split; [discriminate|]. intros [? _]. congruence.
    + rewrite IH. tauto.
Qed.

(** *** The order of enumeration *)

Lemma may_follow_trans k k' k'' :
  may_follow k k' = true -> may_follow k' k'' = true -> may_follow k k'' = true.
Proof.
  unfold may_follow.
  destruct (array_index k), (array_index k'), (array_index k''); try congruence.
  rewrite !Nat.ltb_lt. lia.
Qed.

Lemma may_follow_all k k' ks :
  may_follow k k' = true -> forallb (may_follow k') ks = true ->
  forallb (may_follow k) ks = true.
Proof.
  intros Hk. induction ks as [|k'' ks IH]; cbn [forallb]; [reflexivity|].
  intros [H1 H2]%andb_prop. rewrite (may_follow_trans _ _ _ Hk H1). now apply IH.
Qed.

Lemma ordered_before l1 k l2 :
  ordered (l1 ++ k :: l2) = true -> forallb (fun k' => may_follow k' k) l1 = true.
Proof.
  induction l1 as [|a l1 IH]; cbn [app ordered forallb]; [reflexivity|].
  intros [Ha Hrest]%andb_prop. rewrite forallb_app in Ha. apply andb_prop in Ha as [_ Ha].
  cbn [forallb] in Ha. apply andb_prop in Ha as [-> _]. now apply IH.
Qed.

(** *** replace, place and append *)

Lemma replace_keys k v fields : map fst (replace k v fields) = map fst fields.
Proof.
  induction fields as [|[k' v'] fields IH]; cbn [replace map fst]; [reflexivity|].
  destruct (String.eqb k k'); cbn [map fst]; [reflexivity|now rewrite IH].
Qed.

Lemma lookup_replace_eq k v fields :
  lookup k fields <> None -> lookup k (replace k v fields) = Some v.
Proof.
  induction fields as [|[k' v'] fields IH]; cbn [replace lookup]; [congruence|].
  destruct (String.eqb k k') eqn:E; cbn [lookup]; rewrite E; [reflexivity|exact IH].
Qed.

Lemma lookup_replace_ne k j v fields :
  j <> k -> lookup j (replace k v fields) = lookup j fields.
Proof.
  intros Hne. induction fields as [|[k' v'] fields IH]; cbn [replace lookup]; [reflexivity|].
  destruct (String.eqb_spec k k') as [->|Hk]; cbn [lookup].
  - now apply String.eqb_neq in Hne as ->.
  - now rewrite IH.
Qed.

Lemma replace_forallb (P : string * json -> bool) k v fields :
  (forall k', P (k', v) = true) -> forallb P fields = true ->
  forallb P (replace k v fields) = true.
Proof.
  intros Hv. induction fields as [|[k' v'] fields IH]; cbn [replace forallb]; [auto|].
  intros [H1 H2]%andb_prop. destruct (String.eqb k k'); cbn [forallb].
  - now rewrite Hv, H2.
  - now rewrite H1, IH.
Qed.

Lemma place_keys i k v fields : map fst (place i k v fields) ≡ₚ k :: map fst fields.
Proof.
  induction fields as [|[k' v'] fields IH]; cbn [place map fst]; [reflexivity|].
  destruct (array_index k'); [destruct (i <? n)|]; cbn [map fst]; try reflexivity.
  rewrite IH. apply Permutation_swap.
Qed.

Lemma place_forallb (P : string * json -> bool) i k v fields :
  forallb P (place i k v fields) = P (k, v) && forallb P fields.
Proof.
  induction fields as [|[k' v'] fields IH]; cbn [place forallb]; [reflexivity|].
  destruct (array_index k'); [destruct (i <? n)|]; cbn [forallb]; try reflexivity.
  rewrite IH. now destruct (P (k, v)), (P (k', v')).
Qed.

Lemma place_keys_forallb (P : string -> bool) i k v fields :
  forallb P (map fst (place i k v fields)) = P k && forallb P (map fst fields).
Proof.
  induction fields as [|[k' v'] fields IH]; cbn [place forallb map fst]; [reflexivity|].
  destruct (array_index k'); [destruct (i <? n)|]; cbn [forallb map fst]; try reflexivity.
  rewrite IH. now destruct (P k), (P k').
Qed.

Lemma lookup_place_eq i k v fields :
  lookup k fields = None -> lookup k (place i k v fields) = Some v.
Proof.
  induction fields as [|[k' v'] fields IH]; cbn [place lookup].
  - now rewrite String.eqb_refl.
  - destruct (String.eqb k k') eqn:E; [discriminate|]. intros Hnone.
    destruct (array_index k'); [destruct (i <? n)|]; cbn [lookup];
      rewrite ?String.eqb_refl, ?E; auto.
Qed.

Lemma lookup_place_ne i k j v fields :
  j <> k -> lookup j (place i k v fields) = lookup j fields.
Proof.
  intros Hne. apply String.eqb_neq in Hne.
  induction fields as [|[k' v'] fields IH]; cbn [place lookup]; [now rewrite Hne|].
  destruct (array_index k'); [destruct (i <? n)|]; cbn [lookup]; rewrite ?Hne, ?IH; reflexivity.
Qed.

Lemma place_ordered i k v fields :
  array_index k = Some i -> k ∉ map fst fields -> ordered (map fst fields) = true ->
  ordered (map fst (place i k v fields)) = true.
Proof.
  intros Hk. induction fields as [|[k' v'] fields IH]; cbn [place map fst]; [reflexivity|].
  rewrite not_elem_of_cons. intros [Hne Hnotin] Hord.
  pose proof Hord as Hord'. cbn [ordered] in Hord'. apply andb_prop in Hord' as [Hall Hrest].
  destruct (array_index k') as [i'|] eqn:Hk'; [destruct (i <? i') eqn:Hlt|].
  - cbn [map fst ordered forallb] in *.
    assert (Hf : may_follow k k' = true) by (unfold may_follow; now rewrite Hk, Hk').
    now rewrite Hf, (may_follow_all _ _ _ Hf Hall), Hall, Hrest.
  - cbn [map fst ordered]. rewrite place_keys_forallb, Hall, IH by assumption.
    assert (Hf : may_follow k' k = true); [|now rewrite Hf].
    unfold may_follow. rewrite Hk, Hk'. apply Nat.ltb_lt. apply Nat.ltb_ge in Hlt.
    destruct (decide (i = i')) as [->|]; [|lia].
    exfalso. apply Hne. eapply array_index_inj; eassumption.
  - cbn [map fst ordered forallb] in *.
    assert (Hf : may_follow k k' = true) by (unfold may_follow; now rewrite Hk, Hk').
    now rewrite Hf, (may_follow_all _ _ _ Hf Hall), Hall, Hrest.
Qed.

Lemma append_ordered k ks :
  array_index k = None -> ordered ks = true -> ordered (ks ++ [k]) = true.
Proof.
  intros Hk. induction ks as [|k' ks IH]; cbn [app ordered]; [reflexivity|].
  intros [Hall Hrest]%andb_prop. rewrite forallb_app, Hall, IH by assumption.
  cbn [forallb]. unfold may_follow. rewrite Hk. now destruct (array_index k').
Qed.

Lemma lookup_append_eq k v fields :
  lookup k fields = None -> lookup k (fields ++ [(k, v)]) = Some v.
Proof.
  induction fields as [|[k' v'] fields IH]; cbn [app lookup].
  - now rewrite String.eqb_refl.
  - destruct (String.eqb k k'); [discriminate|exact IH].
Qed.

Lemma lookup_append_ne k j v fields :
  j <> k -> lookup j (fields ++ [(k, v)]) = lookup j fields.
Proof.
  intros Hne. apply String.eqb_neq in Hne.
  induction fields as [|[k' v'] fields IH]; cbn [app lookup]; [now rewrite Hne|].
  now rewrite IH.
Qed.

(** *** update *)

Lemma lookup_update_eq k v fields : lookup k (update k v fields) = Some v.
Proof.
  unfold update. destruct (lookup k fields) eqn:E.
  - apply lookup_replace_eq. congruence.
  - destruct (array_index k); [now apply lookup_place_eq|now apply lookup_append_eq].
Qed.

Lemma lookup_update_ne k j v fields :
  j <> k -> lookup j (update k v fields) = lookup j fields.
Proof.
  intros Hne. unfold update. destruct (lookup k fields).
  - now apply lookup_replace_ne.
  - destruct (array_index k); [now apply lookup_place_ne|now apply lookup_append_ne].
Qed.

Lemma update_keys k v fields :
  distinct (map fst fields) = true -> ordered (map fst fields) = true ->
  distinct (map fst (update k v fields)) = true /\
  ordered (map fst (update k v fields)) = true.
Proof.
  intros Hd Ho. apply distinct_NoDup in Hd. unfold update.
  destruct (lookup k fields) eqn:E.
  - rewrite replace_keys, Ho, (proj2 (distinct_NoDup _) Hd). now split.
  - apply lookup_None in E. destruct (array_index k) as [i|] eqn:Hk.
    + rewrite place_ordered by assumption. split; [|reflexivity].
      apply distinct_NoDup. rewrite place_keys. now apply NoDup_cons.
    + rewrite map_app. cbn [map fst]. rewrite append_ordered by assumption.
      split; [|reflexivity]. apply distinct_NoDup.
      apply NoDup_app. split; [assumption|]. split; [|apply NoDup_singleton].
      intros x Hx Hx'. apply list_elem_of_singleton in Hx' as ->. contradiction.
Qed.

Lemma update_forallb (P : json -> bool) k v fields :
  P v = true -> forallb (fun kv => P (snd kv)) fields = true ->
  forallb (fun kv => P (snd kv)) (update k v fields) = true.
Proof.
  intros Hv Hall. unfold update. destruct (lookup k fields).
  - apply replace_forallb; [intros; exact Hv|assumption].
  - destruct (array_index k).
    + rewrite place_forallb. cbn [snd]. now rewrite Hv, Hall.
    + rewrite forallb_app, Hall. cbn [forallb snd]. now rewrite Hv.
Qed.

Lemma update_wf host k v fields :
  wf host (JObj fields) = true -> wf host v = true ->
  wf host (JObj (update k v fields)) = true.
Proof.
  cbn [wf]. intros [[Hd Ho]%andb_prop Hv]%andb_prop Hwf.
  destruct (update_keys k v fields Hd Ho) as [-> ->].
  now rewrite update_forallb.
Qed.

Lemma update_valid host k v fields :
  valid host (JObj fields) = true -> valid host v = true ->
  valid host (JObj (update k v fields)) = true.
Proof.
  cbn [valid]. intros [[Hd Ho]%andb_prop Hv]%andb_prop Hwf.
  destruct (update_keys k v fields Hd Ho) as [-> ->].
  now rewrite update_forallb.
Qed.

(** A property that every earlier one may precede goes to the end. *)
Lemma update_last k v fields :
  lookup k fields = None ->
  forallb (fun k' => may_follow k' k) (map fst fields) = true ->
  update k v fields = fields ++ [(k, v)].
Proof.
  intros Hnone Hall. unfold update. rewrite Hnone.
  destruct (array_index k) as [i|] eqn:Hk; [|reflexivity]. clear Hnone.
  induction fields as [|[k' v'] fields IH]; cbn [place app]; [reflexivity|].
  cbn [map fst forallb] in Hall. apply andb_prop in Hall as [Hf Hall].
  unfold may_follow in Hf. rewrite Hk in Hf.
  destruct (array_index k') as [i'|]; [|discriminate].
  apply Nat.ltb_lt in Hf. destruct (Nat.ltb_spec i i'); [lia|]. now rewrite IH.
Qed.

(** *** erase *)

Lemma lookup_erase_eq k fields : lookup k (erase k fields) = None.
Proof.
  induction fields as [|[k' v'] fields IH]; cbn [erase lookup]; [reflexivity|].
  destruct (String.eqb k k') eqn:E; cbn [lookup]; [exact IH|now rewrite E].
Qed.

Lemma lookup_erase_ne k j fields :
  j <> k -> lookup j (erase k fields) = lookup j fields.
Proof.
  intros Hne. induction fields as [|[k' v'] fields IH]; cbn [erase lookup]; [reflexivity|].
  destruct (String.eqb_spec k k') as [->|Hk]; cbn [lookup].
  - apply String.eqb_neq in Hne as ->. exact IH.
  - now rewrite IH.
Qed.

Lemma erase_absent k fields : lookup k fields = None -> erase k fields = fields.
Proof.
  induction fields as [|[k' v'] fields IH]; cbn [erase lookup]; [reflexivity|].
  destruct (String.eqb k k'); [discriminate|]. intros H. now rewrite IH.
Qed.

Lemma erase_erase k fields : erase k (erase k fields) = erase k fields.
Proof. apply erase_absent, lookup_erase_eq. Qed.

Lemma erase_forallb (P : string * json -> bool) k fields :
  forallb P fields = true -> forallb P (erase k fields) = true.
Proof.
  induction fields as [|[k' v'] fields IH]; cbn [erase forallb]; [auto|].
  intros [H1 H2]%andb_prop. destruct (String.eqb k k'); cbn [forallb]; [auto|].
  now rewrite H1, IH.
Qed.

Lemma erase_keys_forallb (P : string -> bool) k fields :
  forallb P (map fst fields) = true -> forallb P (map fst (erase k fields)) = true.
Proof.
  induction fields as [|[k' v'] fields IH]; cbn [erase forallb map fst]; [auto|].
  intros [H1 H2]%andb_prop. destruct (String.eqb k k'); cbn [forallb map fst]; [auto|].
  now rewrite H1, IH.
Qed.

Lemma erase_distinct k fields :
  distinct (map fst fields) = true -> distinct (map fst (erase k fields)) = true.
Proof.
  induction fields as [|[k' v'] fields IH]; cbn [erase distinct map fst]; [auto|].
  intros [Hnot Hd]%andb_prop. destruct (String.eqb k k'); [auto|].
  cbn [distinct map fst]. apply andb_true_intro. split; [|now apply IH].
  rewrite negb_true_iff in Hnot |- *. rewrite <- not_true_iff_false in Hnot |- *.
  intros Hex. apply Hnot. revert Hex. clear.
  induction fields as [|[k2 v2] fields IH]; cbn [erase existsb map fst]; [auto|].
  destruct (String.eqb k k2); cbn [existsb map fst]; rewrite !orb_true_iff; tauto.
Qed.

Lemma erase_ordered k fields :
  ordered (map fst fields) = true -> ordered (map fst (erase k fields)) = true.
Proof.
  induction fields as [|[k' v'] fields IH]; cbn [erase ordered map fst]; [auto|].
  intros [Hall Ho]%andb_prop. destruct (String.eqb k k'); [auto|].
  cbn [ordered map fst]. now rewrite erase_keys_forallb, IH.
Qed.

Lemma erase_wf host k fields :
  wf host (JObj fields) = true -> wf host (JObj (erase k fields)) = true.
Proof.
  cbn [wf]. intros [[Hd Ho]%andb_prop Hv]%andb_prop.
  now rewrite erase_distinct, erase_ordered, erase_forallb.
Qed.

Lemma erase_valid host k fields :
  valid host (JObj fields) = true -> valid host (JObj (erase k fields)) = true.
Proof.
  cbn [valid]. intros [[Hd Ho]%andb_prop Hv]%andb_prop.
  now rewrite erase_distinct, erase_ordered, erase_forallb.
Qed.

(** *** Values as JSON text holds them *)

Lemma norm_obj fields : norm (JObj fields) = JObj (norm_fields fields).
Proof. reflexivity. Qed.

Lemma norm_fields_keys fields : map fst (norm_fields fields) = map fst fields.
Proof.
  unfold norm_fields. rewrite map_map. apply map_ext. now intros [k v].
Qed.

Lemma lookup_norm k fields :
  lookup k (norm_fields fields) = option_map norm (lookup k fields).
Proof.
  induction fields as [|[k' v'] fields IH]; cbn [norm_fields map lookup fst snd];
    [reflexivity|].
  destruct (String.eqb k k'); [reflexivity|exact IH].
Qed.




Lemma erase_norm k fields :
  erase k (norm_fields fields) = norm_fields (erase k fields).
Proof.
  induction fields as [|[k' v'] fields IH]; cbn [norm_fields map erase fst snd];
    [reflexivity|].
  destruct (String.eqb k k'); cbn [norm_fields map fst snd]; [exact IH|].
  f_equal. exact IH.
Qed.

Lemma norm_norm v : norm (norm v) = norm v.
Proof.
  induction v as [| b | x | str | items IH | fields IH] using nested_ind;
    try reflexivity.
  - now destruct x.
  - cbn [norm]. f_equal. rewrite map_map.
    induction IH as [|y l Hy _ IHl]; cbn [map]; [reflexivity|]. now rewrite Hy, IHl.
  - cbn [norm]. f_equal. rewrite map_map.
    induction IH as [|[k y] l Hy _ IHl]; cbn [map fst snd] in *; [reflexivity|].
    now rewrite Hy, IHl.
Qed.

Lemma norm_fields_norm fields : norm_fields (norm_fields fields) = norm_fields fields.
Proof.
  pose proof (norm_norm (JObj fields)) as H. rewrite !norm_obj in H. congruence.
Qed.

Lemma wf_valid host v : wf host v = true -> valid host v = true.
Proof.
  induction v as [| b | x | str | items IH | fields IH] using nested_ind;
    try reflexivity.
  - now destruct x.
  - cbn [wf valid]. induction IH as [|y l Hy _ IHl]; cbn [forallb]; [reflexivity|].
    intros [H1 H2]%andb_prop. now rewrite Hy, IHl.
  - cbn [wf valid]. intros [-> Hv]%andb_prop. cbn [andb].
    induction IH as [|[k y] l Hy _ IHl]; cbn [forallb snd] in *; [reflexivity|].
    apply andb_prop in Hv as [H1 H2]. now rewrite Hy, IHl.
Qed.

Lemma wf_norm host v : wf host v = true -> norm v = v.
Proof.
  induction v as [| b | x | str | items IH | fields IH] using nested_ind;
    try reflexivity.
  - now destruct x.
  - cbn [wf norm]. intros Hall. f_equal.
    induction IH as [|y l Hy _ IHl]; cbn [forallb map] in *; [reflexivity|].
    apply andb_prop in Hall as [H1 H2]. now rewrite Hy, IHl.
  - cbn [wf norm]. intros [_ Hall]%andb_prop. f_equal.
    induction IH as [|[k y] l Hy _ IHl]; cbn [forallb map fst snd] in *; [reflexivity|].
    apply andb_prop in Hall as [H1 H2]. now rewrite Hy, IHl.
Qed.

Lemma zero_printed host : printed host "0" = true.
Proof. unfold printed. now rewrite (number_of_zero host). Qed.

(** What was read from a printed value is held by JSON text without loss. *)
Lemma valid_norm_wf host v : valid host v = true -> wf host (norm v) = true.
Proof.
  induction v as [| b | x | str | items IH | fields IH] using nested_ind;
    try reflexivity.
  - destruct x; cbn [valid norm norm_number wf]; auto using zero_printed.
  - cbn [valid norm wf]. induction IH as [|y l Hy _ IHl]; cbn [forallb map];
      [reflexivity|].
    intros [H1 H2]%andb_prop. now rewrite Hy, IHl.
  - cbn [valid wf]. rewrite norm_obj. cbn [wf]. rewrite norm_fields_keys.
    intros [-> Hv]%andb_prop. cbn [andb].
    induction IH as [|[k y] l Hy _ IHl]; cbn [forallb norm_fields map fst snd] in *;
      [reflexivity|].
    apply andb_prop in Hv as [H1 H2]. rewrite Hy by assumption. now apply IHl.
Qed.

End JsonFacts.

(** ** The codec *)

Module JSONFacts.
Import JSON.

Lemma append_cons c s t : String c s +:+ t = String c (s +:+ t).
Proof. reflexivity. Qed.

Lemma append_nil t : EmptyString +:+ t = t.
Proof. reflexivity. Qed.

Lemma append_assoc s t u : (s +:+ t) +:+ u = s +:+ (t +:+ u).
Proof. induction s as [|c s IH]; [reflexivity|]. rewrite !append_cons, IH. reflexivity. Qed.

Lemma append_empty s : s +:+ EmptyString = s.
Proof. induction s as [|c s IH]; [reflexivity|]. now rewrite append_cons, IH. Qed.

Lemma length_append s t : String.length (s +:+ t) = String.length s + String.length t.
Proof. induction s as [|c s IH]; [reflexivity|]. rewrite append_cons. simpl. rewrite IH. reflexivity. Qed.

Lemma terminated_cases rest :
  terminated rest = true ->
  rest = EmptyString \/
  exists tail, rest = String "," tail \/ rest = String "]" tail \/ rest = String "}" tail.
Proof.
  destruct rest as [|c tail]; [now left|]. cbn [terminated]. intros H. right. exists tail.
  destruct (Ascii.eqb_spec c ","); [subst; auto|].
  destruct (Ascii.eqb_spec c "]"); [subst; auto|].
  destruct (Ascii.eqb_spec c "}"); [subst; auto|]. discriminate.
Qed.

(** *** Strings *)

Lemma parse_chars_escape_char c tail s rest :
  parse_chars tail = Some (s, rest) ->
  parse_chars (escape_char c +:+ tail) = Some (String c s, rest).
Proof.
  intros H.
  destruct c as [[] [] [] [] [] [] [] []];
    cbn [escape_char Ascii.eqb Bool.eqb dquote backslash hex_digit andb];
    rewrite ?append_cons, ?append_nil;
    cbn [parse_chars Ascii.eqb Bool.eqb dquote backslash andb is_control unescape];
    rewrite ?H; try reflexivity.
Qed.

(** A byte of a character beyond ASCII is read as it is. *)
Lemma parse_chars_high b0 b1 b2 b3 b4 b5 b6 tail s rest :
  parse_chars tail = Some (s, rest) ->
  parse_chars (String (Ascii b0 b1 b2 b3 b4 b5 b6 true) tail)
  = Some (String (Ascii b0 b1 b2 b3 b4 b5 b6 true) s, rest).
Proof.
  intros H. destruct b0, b1, b2, b3, b4, b5, b6;
    cbn [parse_chars Ascii.eqb Bool.eqb dquote backslash andb is_control];
    rewrite H; reflexivity.
Qed.

Lemma surrogate_bytes c1 c2 c3 high :
  surrogate c1 c2 c3 = Some high ->
  c1 = "237"%char /\
  (exists x0 x1 x2 x3 x4, c2 = Ascii x0 x1 x2 x3 x4 true false true /\ high = negb x4) /\
  (exists y0 y1 y2 y3 y4 y5, c3 = Ascii y0 y1 y2 y3 y4 y5 false true).
Proof.
  unfold surrogate.
  destruct c2 as [x0 x1 x2 x3 x4 [] [] []]; try discriminate.
  destruct c3 as [y0 y1 y2 y3 y4 y5 [] []]; try discriminate.
  destruct (Ascii.eqb_spec c1 "237"); [|discriminate]. intros [= <-].
  split; [assumption|]. split; [now exists x0, x1, x2, x3, x4|now exists y0, y1, y2, y3, y4, y5].
Qed.

Lemma parse_chars_surrogate c1 c2 c3 high tail s rest :
  surrogate c1 c2 c3 = Some high ->
  parse_chars tail = Some (s, rest) ->
  parse_chars (String c1 (String c2 (String c3 tail)))
  = Some (String c1 (String c2 (String c3 s)), rest).
Proof.
  intros Hs H.
  destruct (surrogate_bytes _ _ _ _ Hs)
    as (-> & (x0 & x1 & x2 & x3 & x4 & -> & _) & (y0 & y1 & y2 & y3 & y4 & y5 & ->)).
  change "237"%char with (Ascii true false true true false true true true).
  now do 3 (apply parse_chars_high).
Qed.

Lemma unescape_surrogate x0 x1 x2 x3 x4 y0 y1 y2 y3 y4 y5 :
  unescape_u "d" (hex_digit x2 x3 x4 true) (hex_digit y4 y5 x0 x1) (hex_digit y0 y1 y2 y3)
  = Some (String "237" (String (Ascii x0 x1 x2 x3 x4 true false true)
            (String (Ascii y0 y1 y2 y3 y4 y5 false true) EmptyString))).
Proof.
  destruct x0, x1, x2, x3, x4, y0, y1, y2, y3, y4, y5; vm_compute; reflexivity.
Qed.

Lemma parse_chars_escape_unit c1 c2 c3 high tail s rest :
  surrogate c1 c2 c3 = Some high ->
  parse_chars tail = Some (s, rest) ->
  parse_chars (escape_unit c2 c3 +:+ tail)
  = Some (String c1 (String c2 (String c3 s)), rest).
Proof.
  intros Hs H.
  destruct (surrogate_bytes _ _ _ _ Hs)
    as (-> & (x0 & x1 & x2 & x3 & x4 & -> & _) & (y0 & y1 & y2 & y3 & y4 & y5 & ->)).
  unfold escape_unit. rewrite !append_cons, append_nil.
  change (parse_chars (String backslash (String "u" (String "d"
            (String (hex_digit x2 x3 x4 true) (String (hex_digit y4 y5 x0 x1)
               (String (hex_digit y0 y1 y2 y3) tail)))))))
    with (match unescape_u "d" (hex_digit x2 x3 x4 true) (hex_digit y4 y5 x0 x1)
                  (hex_digit y0 y1 y2 y3) with
          | Some u => prepend u (parse_chars tail)
          | None => None
          end).
  rewrite unescape_surrogate, H. reflexivity.
Qed.

Lemma escape_three c1 c2 c3 rest3 :
  escape (String c1 (String c2 (String c3 rest3))) =
  match surrogate c1 c2 c3 with
  | Some true =>
      match rest3 with
      | String t1 (String t2 (String t3 rest6)) =>
          match surrogate t1 t2 t3 with
          | Some false =>
              String c1 (String c2 (String c3
                (String t1 (String t2 (String t3 (escape rest6))))))
          | _ => escape_unit c2 c3 +:+ escape rest3
          end
      | _ => escape_unit c2 c3 +:+ escape rest3
      end
  | Some false => escape_unit c2 c3 +:+ escape rest3
  | None => escape_char c1 +:+ escape (String c2 (String c3 rest3))
  end.
Proof. reflexivity. Qed.

Lemma escape_short c1 rest1 :
  String.length rest1 < 2 -> escape (String c1 rest1) = escape_char c1 +:+ escape rest1.
Proof.
  destruct rest1 as [|c2 [|c3 rest3]]; cbn [String.length]; intros H;
    [reflexivity|reflexivity|lia].
Qed.

Lemma parse_chars_escape_le n s rest :
  String.length s <= n ->
  parse_chars (escape s +:+ String dquote rest) = Some (s, rest).
Proof.
  revert s. induction n as [|n IH]; intros s Hlen.
  - destruct s; [reflexivity|cbn [String.length] in Hlen; lia].
  - destruct s as [|c1 rest1]; [reflexivity|]. cbn [String.length] in Hlen.
    destruct rest1 as [|c2 [|c3 rest3]].
    + rewrite escape_short by (cbn; lia). rewrite append_assoc.
      apply parse_chars_escape_char, IH. cbn. lia.
    + rewrite escape_short by (cbn; lia). rewrite append_assoc.
      apply parse_chars_escape_char, IH. cbn [String.length] in *. lia.
    + rewrite escape_three. cbn [String.length] in Hlen.
      assert (Hlone : forall high, surrogate c1 c2 c3 = Some high ->
                parse_chars ((escape_unit c2 c3 +:+ escape rest3) +:+ String dquote rest)
                = Some (String c1 (String c2 (String c3 rest3)), rest)).
      { intros high Hs. rewrite append_assoc.
        apply (parse_chars_escape_unit c1 c2 c3 high); [assumption|]. apply IH. lia. }
      destruct (surrogate c1 c2 c3) as [[|]|] eqn:Hs.
      * destruct rest3 as [|t1 [|t2 [|t3 rest6]]]; try (now apply (Hlone true)).
        destruct (surrogate t1 t2 t3) as [[|]|] eqn:Ht; try (now apply (Hlone true)).
        rewrite !append_cons.
        apply (parse_chars_surrogate c1 c2 c3 true); [assumption|].
        apply (parse_chars_surrogate t1 t2 t3 false); [assumption|].
        apply IH. cbn [String.length] in Hlen. lia.
      * now apply (Hlone false).
      * rewrite append_assoc. apply parse_chars_escape_char, IH.
        cbn [String.length]. lia.
Qed.

Lemma parse_chars_escape s rest :
  parse_chars (escape s +:+ String dquote rest) = Some (s, rest).
Proof. now apply (parse_chars_escape_le (String.length s)). Qed.

(** *** Numbers *)

Lemma terminated_not_digit c tail :
  terminated (String c tail) = true -> Literal.is_digit c = false.
Proof.
  intros H. destruct (terminated_cases _ H) as [|[t [[= -> _]|[[= -> _]|[= -> _]]]]];
    [discriminate|reflexivity..].
Qed.

Lemma digits_app s ds r rest :
  terminated rest = true -> Literal.digits s = (ds, r) ->
  Literal.digits (s +:+ rest) = (ds, r +:+ rest).
Proof.
  intros Hrest. revert ds r. induction s as [|c s IH]; intros ds r.
  - cbn [Literal.digits]. intros [= <- <-]. rewrite !append_nil.
    destruct rest as [|c tail]; [reflexivity|].
    cbn [Literal.digits]. now rewrite (terminated_not_digit c tail).
  - rewrite append_cons. cbn [Literal.digits]. destruct (Literal.is_digit c).
    + destruct (Literal.digits s) as [ds' r']. intros [= <- <-].
      now rewrite (IH ds' r' eq_refl).
    + intros [= <- <-]. reflexivity.
Qed.

Lemma minus_app s sg r rest :
  terminated rest = true -> Literal.minus s = (sg, r) ->
  Literal.minus (s +:+ rest) = (sg, r +:+ rest).
Proof.
  intros Hrest. destruct s as [|c s].
  - cbn [Literal.minus]. intros [= <- <-]. rewrite !append_nil.
    destruct (terminated_cases _ Hrest) as [->|[t [->|[->| ->]]]]; reflexivity.
  - rewrite append_cons. cbn [Literal.minus]. destruct (Ascii.eqb c "-"); now intros [= <- <-].
Qed.

Lemma int_app s i r rest :
  terminated rest = true -> Literal.int s = Some (i, r) ->
  Literal.int (s +:+ rest) = Some (i, r +:+ rest).
Proof.
  intros Hrest. unfold Literal.int.
  destruct (Literal.digits s) as [ds r'] eqn:Hd. rewrite (digits_app _ _ _ _ Hrest Hd).
  destruct ds as [|c [|c' ds]]; [discriminate|now intros [= <- <-]|].
  destruct (Ascii.eqb c "0"); [discriminate|now intros [= <- <-]].
Qed.

Lemma frac_app s f r rest :
  terminated rest = true -> Literal.frac s = Some (f, r) ->
  Literal.frac (s +:+ rest) = Some (f, r +:+ rest).
Proof.
  intros Hrest. destruct s as [|c s].
  - cbn [Literal.frac]. intros [= <- <-]. rewrite !append_nil.
    destruct (terminated_cases _ Hrest) as [->|[t [->|[->| ->]]]]; reflexivity.
  - rewrite append_cons. cbn [Literal.frac]. destruct (Ascii.eqb c ".").
    + destruct (Literal.digits s) as [ds r'] eqn:Hd. rewrite (digits_app _ _ _ _ Hrest Hd).
      destruct ds; [discriminate|now intros [= <- <-]].
    + now intros [= <- <-].
Qed.

Lemma exp_sign_app s sg r rest :
  terminated rest = true -> Literal.exp_sign s = (sg, r) ->
  Literal.exp_sign (s +:+ rest) = (sg, r +:+ rest).
Proof.
  intros Hrest. destruct s as [|c s].
  - cbn [Literal.exp_sign]. intros [= <- <-]. rewrite !append_nil.
    destruct (terminated_cases _ Hrest) as [->|[t [->|[->| ->]]]]; reflexivity.
  - rewrite append_cons. cbn [Literal.exp_sign].
    destruct (Ascii.eqb c "+" || Ascii.eqb c "-"); now intros [= <- <-].
Qed.

Lemma exp_app s e r rest :
  terminated rest = true -> Literal.exp s = Some (e, r) ->
  Literal.exp (s +:+ rest) = Some (e, r +:+ rest).
Proof.
  intros Hrest. destruct s as [|c s].
  - cbn [Literal.exp]. intros [= <- <-]. rewrite !append_nil.
    destruct (terminated_cases _ Hrest) as [->|[t [->|[->| ->]]]]; reflexivity.
  - rewrite append_cons. cbn [Literal.exp]. destruct (Ascii.eqb c "e" || Ascii.eqb c "E").
    + destruct (Literal.exp_sign s) as [sg r1] eqn:Hs.
      rewrite (exp_sign_app _ _ _ _ Hrest Hs).
      destruct (Literal.digits r1) as [ds r'] eqn:Hd. rewrite (digits_app _ _ _ _ Hrest Hd).
      destruct ds; [discriminate|now intros [= <- <-]].
    + now intros [= <- <-].
Qed.

(** The literal at the front of a text stays the literal at its front when
    the text is followed by a comma or a closing bracket. *)
Lemma scan_app s lit r rest :
  terminated rest = true -> Literal.scan s = Some (lit, r) ->
  Literal.scan (s +:+ rest) = Some (lit, r +:+ rest).
Proof.
  intros Hrest. unfold Literal.scan.
  destruct (Literal.minus s) as [sg s1] eqn:Hm. rewrite (minus_app _ _ _ _ Hrest Hm).
  destruct (Literal.int s1) as [[i s2]|] eqn:Hi; [|discriminate].
  rewrite (int_app _ _ _ _ Hrest Hi).
  destruct (Literal.frac s2) as [[f s3]|] eqn:Hf; [|discriminate].
  rewrite (frac_app _ _ _ _ Hrest Hf).
  destruct (Literal.exp s3) as [[e s4]|] eqn:He; [|discriminate].
  rewrite (exp_app _ _ _ _ Hrest He). now intros [= <- <-].
Qed.

Lemma literal_scan s : Literal.literal s = true -> Literal.scan s = Some (s, EmptyString).
Proof.
  unfold Literal.literal. destruct (Literal.scan s) as [[lit [|]]|]; try discriminate.
  now intros ->%String.eqb_eq.
Qed.

Lemma literal_start s :
  Literal.literal s = true ->
  exists c tail, s = String c tail /\ (c = "-"%char \/ Literal.is_digit c = true).
Proof.
  intros H%literal_scan. destruct s as [|c tail]; [discriminate|]. exists c, tail.
  split; [reflexivity|]. revert H. unfold Literal.scan. cbn [Literal.minus].
  destruct (Ascii.eqb_spec c "-"); [now left|]. right.
  unfold Literal.int in H. cbn [Literal.digits] in H.
  now destruct (Literal.is_digit c).
Qed.

Section Reading.
Variable host : Host.

Lemma parse_number_printed repr rest :
  Json.printed host repr = true -> terminated rest = true ->
  parse_number host (repr +:+ rest) = Some (JNum (Finite repr), rest).
Proof.
  unfold Json.printed. intros [Hlit Hnum]%andb_prop Hrest. unfold parse_number.
  rewrite (scan_app _ _ _ _ Hrest (literal_scan _ Hlit)), append_nil.
  destruct (number_of host repr); try discriminate.
  now apply String.eqb_eq in Hnum as ->.
Qed.

Lemma parse_number_zero rest :
  terminated rest = true ->
  parse_number host (String "0" rest) = Some (JNum (Finite "0"), rest).
Proof.
  intros Hrest. change (String "0" rest) with ("0" +:+ rest).
  apply parse_number_printed; [apply JsonFacts.zero_printed|assumption].
Qed.

Lemma stringify_start v :
  Json.valid host v = true ->
  exists c tail, stringify v = String c tail /\ value_start c = true.
Proof.
  destruct v as [|[]|x|s|items|fields]; try (intros _; eexists _, _; split; reflexivity).
  destruct x as [repr| | | |]; try (intros _; eexists _, _; split; reflexivity).
  cbn [Json.valid stringify print_number]. unfold Json.printed.
  intros [Hlit _]%andb_prop.
  destruct (literal_start _ Hlit) as (c & tail & -> & Hc).
  exists c, tail. split; [reflexivity|]. destruct Hc as [-> | Hc]; [reflexivity|].
  unfold value_start. now rewrite Hc.
Qed.

Lemma value_start_not_ws c tail : value_start c = true -> skip_ws (String c tail) = String c tail.
Proof. destruct c as [[] [] [] [] [] [] [] []]; try discriminate; reflexivity. Qed.

Lemma value_start_not_close c tail (close : ascii) :
  close = "]"%char \/ close = "}"%char ->
  value_start c = true -> expect (String close EmptyString) (String c tail) = None.
Proof.
  intros [-> | ->]; destruct c as [[] [] [] [] [] [] [] []]; try discriminate; reflexivity.
Qed.

Lemma parse_value_number fuel c tail :
  (c = "-"%char \/ Literal.is_digit c = true) ->
  parse_value host (S fuel) (String c tail) = parse_number host (String c tail).
Proof.
  intros [-> | Hd]; [reflexivity|].
  destruct c as [[] [] [] [] [] [] [] []]; try discriminate; reflexivity.
Qed.

Lemma stringify_arr items : stringify (JArr items) = String "[" (elements items).
Proof. reflexivity. Qed.

Lemma stringify_obj fields : stringify (JObj fields) = String "{" (members fields).
Proof. reflexivity. Qed.

Lemma parse_value_S fuel s :
  parse_value host (S fuel) s =
  match skip_ws s with
  | EmptyString => None
  | String c rest =>
      if Ascii.eqb c "n" then option_map (pair JNull) (expect "ull" rest)
      else if Ascii.eqb c "t" then option_map (pair (JBool true)) (expect "rue" rest)
      else if Ascii.eqb c "f" then option_map (pair (JBool false)) (expect "alse" rest)
      else if Ascii.eqb c dquote then
        match parse_chars rest with
        | Some (str, rest') => Some (JStr str, rest')
        | None => None
        end
      else if Ascii.eqb c "[" then
        match expect "]" (skip_ws rest) with
        | Some rest' => Some (JArr [], rest')
        | None =>
            match parse_elements host fuel rest with
            | Some (items, rest') => Some (JArr items, rest')
            | None => None
            end
        end
      else if Ascii.eqb c "{" then
        match expect "}" (skip_ws rest) with
        | Some rest' => Some (JObj [], rest')
        | None =>
            match parse_members host fuel rest with
            | Some (members, rest') => Some (JObj (object_of members), rest')
            | None => None
            end
        end
      else parse_number host (String c rest)
  end.
Proof. reflexivity. Qed.

Lemma parse_elements_S fuel s :
  parse_elements host (S fuel) s =
  match parse_value host fuel s with
  | None => None
  | Some (v, rest) =>
      match skip_ws rest with
      | EmptyString => None
      | String c rest' =>
          if Ascii.eqb c "," then
            match parse_elements host fuel rest' with
            | Some (vs, rest'') => Some (v :: vs, rest'')
            | None => None
            end
          else if Ascii.eqb c "]" then Some ([v], rest')
          else None
      end
  end.
Proof. reflexivity. Qed.

Lemma parse_members_S fuel s :
  parse_members host (S fuel) s =
  match expect (String dquote EmptyString) (skip_ws s) with
  | None => None
  | Some s1 =>
      match parse_chars s1 with
      | None => None
      | Some (k, s2) =>
          match expect ":" (skip_ws s2) with
          | None => None
          | Some s3 =>
              match parse_value host fuel s3 with
              | None => None
              | Some (v, rest) =>
                  match skip_ws rest with
                  | EmptyString => None
                  | String c rest' =>
                      if Ascii.eqb c "," then
                        match parse_members host fuel rest' with
                        | Some (ms, rest'') => Some ((k, v) :: ms, rest'')
                        | None => None
                        end
                      else if Ascii.eqb c "}" then Some ([(k, v)], rest')
                      else None
                  end
              end
          end
      end
  end.
Proof. reflexivity. Qed.

Lemma elements_read_back items :
  items <> [] -> Forall (reads_back host) items -> forallb (Json.valid host) items = true ->
  forall fuel rest,
    String.length (elements items) < fuel ->
    parse_elements host fuel (elements items +:+ rest) = Some (map Json.norm items, rest).
Proof.
  intros Hne HF. induction HF as [|x l Hx HF IH]; [congruence|].
  intros Hwf fuel rest Hfuel. cbn [forallb] in Hwf. apply andb_prop in Hwf as [Hwx Hwl].
  destruct fuel as [|fuel]; [lia|]. rewrite parse_elements_S.
  destruct l as [|y l].
  - cbn [elements] in *. rewrite length_append in Hfuel. cbn [String.length] in Hfuel.
    rewrite append_assoc, append_cons, append_nil.
    rewrite (Hx Hwx fuel (String "]" rest)); [reflexivity|lia|reflexivity].
  - change (elements (x :: y :: l)) with (stringify x +:+ "," +:+ elements (y :: l)) in *.
    rewrite !length_append in Hfuel. cbn [String.length] in Hfuel.
    rewrite !append_assoc, append_cons, append_nil.
    rewrite (Hx Hwx fuel (String "," (elements (y :: l) +:+ rest))); [|lia|reflexivity].
    cbn [skip_ws is_ws Ascii.eqb Bool.eqb orb].
    rewrite IH; [reflexivity|discriminate|assumption|lia].
Qed.

Lemma quote_append k t : quote k +:+ t = String dquote (escape k +:+ String dquote t).
Proof. unfold quote. rewrite append_cons, append_assoc, append_cons, append_nil. reflexivity. Qed.

Lemma length_quote k : 2 <= String.length (quote k).
Proof. unfold quote. cbn [String.length]. rewrite length_append. cbn [String.length]. lia. Qed.

Lemma members_read_back fields :
  fields <> [] -> Forall (fun kv => reads_back host (snd kv)) fields ->
  forallb (fun kv => Json.valid host (snd kv)) fields = true ->
  forall fuel rest,
    String.length (members fields) < fuel ->
    parse_members host fuel (members fields +:+ rest) = Some (Json.norm_fields fields, rest).
Proof.
  intros Hne HF. induction HF as [|[k x] l Hx HF IH]; [congruence|].
  intros Hwf fuel rest Hfuel. cbn [forallb snd] in Hwf, Hx.
  apply andb_prop in Hwf as [Hwx Hwl].
  destruct fuel as [|fuel]; [lia|]. rewrite parse_members_S.
  pose proof (length_quote k) as Hk.
  destruct l as [|y l].
  - change (members [(k, x)]) with (quote k +:+ ":" +:+ stringify x +:+ "}") in *.
    rewrite !length_append in Hfuel. cbn [String.length] in Hfuel.
    rewrite !append_assoc, quote_append, !append_cons, !append_nil.
    cbn [skip_ws is_ws dquote Ascii.eqb Bool.eqb orb expect].
    rewrite parse_chars_escape.
    cbn [skip_ws is_ws Ascii.eqb Bool.eqb orb expect].
    rewrite (Hx Hwx fuel (String "}" rest)); [reflexivity|lia|reflexivity].
  - change (members ((k, x) :: y :: l))
      with (quote k +:+ ":" +:+ stringify x +:+ "," +:+ members (y :: l)) in *.
    rewrite !length_append in Hfuel. cbn [String.length] in Hfuel.
    rewrite !append_assoc, quote_append, !append_cons, !append_nil.
    cbn [skip_ws is_ws dquote Ascii.eqb Bool.eqb orb expect].
    rewrite parse_chars_escape.
    cbn [skip_ws is_ws Ascii.eqb Bool.eqb orb expect].
    rewrite (Hx Hwx fuel (String "," (members (y :: l) +:+ rest))); [|lia|reflexivity].
    cbn [skip_ws is_ws Ascii.eqb Bool.eqb orb].
    rewrite IH; [reflexivity|discriminate|assumption|lia].
Qed.

(** *** Objects *)

Lemma object_of_wf_id fields :
  Json.distinct (map fst fields) = true -> Json.ordered (map fst fields) = true ->
  object_of fields = fields.
Proof.
  rewrite JsonFacts.distinct_NoDup. unfold object_of.
  enough (G : forall acc,
             NoDup (map fst (acc ++ fields)) -> Json.ordered (map fst (acc ++ fields)) = true ->
             fold_left (fun fs kv => Json.update (fst kv) (snd kv) fs) fields acc
             = acc ++ fields) by apply (G []).
  induction fields as [|[k v] fields IH]; intros acc Hnd Hord; cbn [fold_left fst snd].
  - now rewrite app_nil_r.
  - rewrite JsonFacts.update_last.
    + rewrite IH; rewrite <- app_assoc; [reflexivity|assumption|assumption].
    + apply JsonFacts.lookup_None. rewrite map_app in Hnd.
      apply NoDup_app in Hnd as (_ & Hdisj & _).
      intros Hin. apply (Hdisj k Hin). cbn [map fst]. apply elem_of_cons. now left.
    + rewrite map_app in Hord. cbn [map fst] in Hord.
      now apply JsonFacts.ordered_before in Hord.
Qed.

Lemma object_of_valid members :
  forallb (fun kv => Json.valid host (snd kv)) members = true ->
  Json.valid host (JObj (object_of members)) = true.
Proof.
  unfold object_of.
  enough (G : forall acc,
             Json.valid host (JObj acc) = true ->
             forallb (fun kv => Json.valid host (snd kv)) members = true ->
             Json.valid host (JObj (fold_left (fun fs kv => Json.update (fst kv) (snd kv) fs)
                                      members acc)) = true)
    by (apply (G []); reflexivity).
  induction members as [|[k v] members IH]; intros acc Hacc Hms; cbn [fold_left fst snd].
  - assumption.
  - cbn [forallb snd] in Hms. apply andb_prop in Hms as [Hv Hms].
    apply IH; [now apply JsonFacts.update_valid|assumption].
Qed.

(** *** Reading back what was printed *)

Lemma parse_value_stringify v : reads_back host v.
Proof.
  induction v as [| b | x | str | items IH | fields IH] using Json.nested_ind;
    intros Hwf fuel rest Hfuel Hrest; (destruct fuel as [|fuel]; [lia|]).
  - reflexivity.
  - destruct b; reflexivity.
  - destruct x as [repr| | | |]; try reflexivity.
    + destruct (stringify_start (JNum (Finite repr)) Hwf) as (c & tail & Heq & Hc).
      cbn [Json.valid] in Hwf.
      pose proof (parse_number_printed repr rest Hwf Hrest) as Hnum.
      cbn [stringify print_number Json.norm Json.norm_number] in *.
      rewrite Heq in *. rewrite append_cons in *.
      rewrite parse_value_number; [assumption|].
      unfold Json.printed in Hwf. apply andb_prop in Hwf as [Hlit _].
      destruct (literal_start _ Hlit) as (c' & tail' & [= <- <-] & Hstart). exact Hstart.
    + cbn [stringify print_number Json.norm Json.norm_number]. rewrite append_cons, append_nil.
      rewrite parse_value_number by (now right). now apply parse_number_zero.
  - cbn [stringify]. rewrite quote_append, parse_value_S.
    cbn [skip_ws is_ws dquote Ascii.eqb Bool.eqb orb]. rewrite parse_chars_escape. reflexivity.
  - rewrite stringify_arr in *. rewrite append_cons, parse_value_S.
    cbn [skip_ws is_ws Ascii.eqb Bool.eqb orb]. cbn [String.length] in Hfuel.
    destruct items as [|x l]; [reflexivity|].
    cbn [Json.valid] in Hwf.
    assert (Hno : expect "]" (skip_ws (elements (x :: l) +:+ rest)) = None).
    { destruct (stringify_start x) as (c & tail & Heq & Hc).
      { cbn [forallb] in Hwf. now apply andb_prop in Hwf as [-> _]. }
      destruct l; cbn [elements]; rewrite Heq, !append_cons, value_start_not_ws by assumption;
        apply value_start_not_close; auto. }
    rewrite Hno, elements_read_back; [reflexivity|discriminate|assumption|exact Hwf|lia].
  - rewrite stringify_obj in *. rewrite append_cons, parse_value_S.
    cbn [skip_ws is_ws Ascii.eqb Bool.eqb orb]. cbn [String.length] in Hfuel.
    destruct fields as [|[k x] l]; [reflexivity|].
    assert (Hno : expect "}" (skip_ws (members ((k, x) :: l) +:+ rest)) = None).
    { destruct l as [|[]]; cbn [members]; rewrite quote_append; reflexivity. }
    cbn [Json.valid] in Hwf. apply andb_prop in Hwf as [[Hkeys Hord]%andb_prop Hvals].
    rewrite Hno, members_read_back; [|discriminate|assumption|assumption|lia].
    rewrite JsonFacts.norm_obj.
    now rewrite object_of_wf_id by (now rewrite JsonFacts.norm_fields_keys).
Qed.

(** [JSON.parse (JSON.stringify v)] is [v] as JSON text holds it. *)
Theorem parse_stringify_norm v :
  Json.valid host v = true -> parse host (stringify v) = Some (Json.norm v).
Proof.
  intros Hwf. unfold parse.
  pose proof (parse_value_stringify v Hwf (S (String.length (stringify v))) EmptyString) as H.
  rewrite append_empty in H. rewrite H; [reflexivity|lia|reflexivity].
Qed.

(** [JSON.parse (JSON.stringify v)] is [v]. *)
Theorem parse_stringify v : Json.wf host v = true -> parse host (stringify v) = Some v.
Proof.
  intros Hwf. rewrite parse_stringify_norm by now apply JsonFacts.wf_valid.
  now rewrite (JsonFacts.wf_norm host).
Qed.

(** *** What the parser returns is a value of the program *)

Lemma parse_number_valid s v rest :
  parse_number host s = Some (v, rest) -> Json.valid host v = true.
Proof.
  unfold parse_number. destruct (Literal.scan s) as [[lit r]|]; [|discriminate].
  intros [= <- _]. cbn [Json.valid].
  destruct (number_of host lit) as [repr| | | |] eqn:Hn; try reflexivity.
  destruct (number_of_printed host lit repr Hn) as [Hlit Hfix].
  unfold Json.printed. now rewrite Hlit, Hfix, String.eqb_refl.
Qed.

Lemma parse_valid_fuel fuel :
  (forall s v rest, parse_value host fuel s = Some (v, rest) -> Json.valid host v = true) /\
  (forall s vs rest, parse_elements host fuel s = Some (vs, rest) ->
                     forallb (Json.valid host) vs = true) /\
  (forall s ms rest, parse_members host fuel s = Some (ms, rest) ->
                     forallb (fun kv => Json.valid host (snd kv)) ms = true).
Proof.
  induction fuel as [|fuel (IHv & IHe & IHm)]; [repeat split; discriminate|].
  repeat split; intros s.
  - intros v rest. rewrite parse_value_S. unfold option_map.
    repeat case_match; intros ?; simplify_eq; try reflexivity.
    + eapply (IHe _ _ _ ltac:(eassumption)).
    + apply object_of_valid. eapply IHm; eassumption.
    + eapply parse_number_valid; eassumption.
  - intros vs rest. rewrite parse_elements_S.
    repeat case_match; intros ?; simplify_eq; cbn [forallb].
    + erewrite IHv, IHe by eassumption. reflexivity.
    + erewrite IHv by eassumption. reflexivity.
  - intros ms rest. rewrite parse_members_S.
    repeat case_match; intros ?; simplify_eq; cbn [forallb snd].
    + erewrite IHv, IHm by eassumption. reflexivity.
    + erewrite IHv by eassumption. reflexivity.
Qed.

Theorem parse_valid text v : parse host text = Some v -> Json.valid host v = true.
Proof.
  unfold parse. repeat case_match; intros ?; simplify_eq.
  eapply (proj1 (parse_valid_fuel _)); eassumption.
Qed.

(** *** The fuel *)

Lemma skip_ws_length s : String.length (skip_ws s) <= String.length s.
Proof.
  induction s as [|c s IH]; [reflexivity|]. cbn [skip_ws]. destruct (is_ws c); cbn [String.length]; lia.
Qed.

Lemma expect_length word s rest :
  expect word s = Some rest -> String.length rest <= String.length s.
Proof.
  revert s. induction word as [|a word IH]; intros s; cbn [expect].
  - now intros [= ->].
  - destruct s as [|c s]; [discriminate|]. destruct (Ascii.eqb a c); [|discriminate].
    intros H%IH. cbn [String.length]. lia.
Qed.

Lemma parse_chars_length_le m s str rest :
  String.length s <= m ->
  parse_chars s = Some (str, rest) -> String.length rest < String.length s.
Proof.
  revert s str rest. induction m as [|m IH]; intros s str rest Hm;
    (destruct s as [|c s]; [discriminate|]); cbn [String.length] in Hm; [lia|].
  cbn [parse_chars String.length].
  destruct (Ascii.eqb c dquote); [intros [= _ ->]; lia|].
  destruct (Ascii.eqb c backslash).
  - destruct s as [|e s]; [discriminate|]. cbn [String.length] in *.
    destruct (Ascii.eqb e "u").
    + destruct s as [|h1 [|h2 [|h3 [|h4 s]]]]; try discriminate.
      cbn [String.length] in *.
      destruct (unescape_u h1 h2 h3 h4); [|discriminate].
      destruct (parse_chars s) as [[str' rest']|] eqn:E; [|discriminate].
      cbn [prepend]. intros [= _ <-].
      pose proof (IH s str' rest' ltac:(lia) E). lia.
    + destruct (unescape e); [|discriminate].
      destruct (parse_chars s) as [[str' rest']|] eqn:E; [|discriminate].
      cbn [prepend]. intros [= _ <-].
      pose proof (IH s str' rest' ltac:(lia) E). lia.
  - destruct (is_control c); [discriminate|].
    destruct (parse_chars s) as [[str' rest']|] eqn:E; [|discriminate].
    cbn [prepend]. intros [= _ <-].
    pose proof (IH s str' rest' ltac:(lia) E). lia.
Qed.

Lemma parse_chars_length s str rest :
  parse_chars s = Some (str, rest) -> String.length rest < String.length s.
Proof. now apply (parse_chars_length_le (String.length s)). Qed.

Lemma digits_length s ds r :
  Literal.digits s = (ds, r) -> String.length s = String.length ds + String.length r.
Proof.
  revert ds r. induction s as [|c s IH]; intros ds r; cbn [Literal.digits].
  - now intros [= <- <-].
  - destruct (Literal.is_digit c).
    + destruct (Literal.digits s) as [ds' r']. intros [= <- <-]. cbn [String.length].
      now rewrite (IH ds' r' eq_refl).
    + now intros [= <- <-].
Qed.

Lemma scan_length s lit rest :
  Literal.scan s = Some (lit, rest) -> String.length rest < String.length s.
Proof.
  unfold Literal.scan.
  destruct (Literal.minus s) as [sg s1] eqn:Hm.
  assert (H1 : String.length s1 <= String.length s).
  { destruct s as [|c s]; cbn [Literal.minus] in Hm; [now injection Hm as <- <-|].
    destruct (Ascii.eqb c "-"); injection Hm as <- <-; cbn [String.length]; lia. }
  destruct (Literal.int s1) as [[i s2]|] eqn:Hi; [|discriminate].
  assert (H2 : String.length s2 < String.length s1).
  { unfold Literal.int in Hi. destruct (Literal.digits s1) as [ds r] eqn:Hd.
    apply digits_length in Hd.
    destruct ds as [|c [|c' ds]]; [discriminate|injection Hi as <- <-|].
    - cbn [String.length] in Hd. lia.
    - destruct (Ascii.eqb c "0"); [discriminate|]. injection Hi as <- <-.
      cbn [String.length] in Hd. lia. }
  destruct (Literal.frac s2) as [[f s3]|] eqn:Hf; [|discriminate].
  assert (H3 : String.length s3 <= String.length s2).
  { destruct s2 as [|c s2]; cbn [Literal.frac] in Hf; [now injection Hf as <- <-|].
    destruct (Ascii.eqb c ".").
    - destruct (Literal.digits s2) as [ds r] eqn:Hd. apply digits_length in Hd.
      destruct ds; [discriminate|]. injection Hf as <- <-. cbn [String.length]. lia.
    - now injection Hf as <- <-. }
  destruct (Literal.exp s3) as [[e s4]|] eqn:He; [|discriminate].
  assert (H4 : String.length s4 <= String.length s3).
  { destruct s3 as [|c s3]; cbn [Literal.exp] in He; [now injection He as <- <-|].
    destruct (Ascii.eqb c "e" || Ascii.eqb c "E").
    - destruct (Literal.exp_sign s3) as [sg' r1] eqn:Hs.
      assert (String.length r1 <= String.length s3).
      { destruct s3 as [|c' s3]; cbn [Literal.exp_sign] in Hs; [now injection Hs as <- <-|].
        destruct (Ascii.eqb c' "+" || Ascii.eqb c' "-"); injection Hs as <- <-;
          cbn [String.length]; lia. }
      destruct (Literal.digits r1) as [ds r] eqn:Hd. apply digits_length in Hd.
      destruct ds; [discriminate|]. injection He as <- <-. cbn [String.length]. lia.
    - now injection He as <- <-. }
  intros [= _ <-]. lia.
Qed.

Lemma parse_number_length s v rest :
  parse_number host s = Some (v, rest) -> String.length rest < String.length s.
Proof.
  unfold parse_number. destruct (Literal.scan s) as [[lit r]|] eqn:E; [|discriminate].
  intros [= _ <-]. eapply scan_length, E.
Qed.

(** A value is read with any fuel that is not less than the number of
    characters that it takes. *)
Lemma parse_fuel fuel :
  (forall s v rest,
      parse_value host fuel s = Some (v, rest) ->
      String.length rest < String.length s /\
      forall fuel', String.length s - String.length rest <= fuel' ->
                    parse_value host fuel' s = Some (v, rest)) /\
  (forall s vs rest,
      parse_elements host fuel s = Some (vs, rest) ->
      String.length rest < String.length s /\
      forall fuel', String.length s - String.length rest <= fuel' ->
                    parse_elements host fuel' s = Some (vs, rest)) /\
  (forall s ms rest,
      parse_members host fuel s = Some (ms, rest) ->
      String.length rest < String.length s /\
      forall fuel', String.length s - String.length rest <= fuel' ->
                    parse_members host fuel' s = Some (ms, rest)).
Proof.
  induction fuel as [|fuel (IHv & IHe & IHm)]; [repeat split; discriminate|].
  split; [|split]; intros s.
  - intros v rest. rewrite parse_value_S.
    pose proof (skip_ws_length s) as Hws.
    destruct (skip_ws s) as [|c r] eqn:Hs; [discriminate|]. cbn [String.length] in Hws.
    assert (Hany : forall fuel', parse_value host (S fuel') s =
              if Ascii.eqb c "n" then option_map (pair JNull) (expect "ull" r)
              else if Ascii.eqb c "t" then option_map (pair (JBool true)) (expect "rue" r)
              else if Ascii.eqb c "f" then option_map (pair (JBool false)) (expect "alse" r)
              else if Ascii.eqb c dquote then
                match parse_chars r with
                | Some (str, rest') => Some (JStr str, rest')
                | None => None
                end
              else if Ascii.eqb c "[" then
                match expect "]" (skip_ws r) with
                | Some rest' => Some (JArr [], rest')
                | None =>
                    match parse_elements host fuel' r with
                    | Some (items, rest') => Some (JArr items, rest')
                    | None => None
                    end
                end
              else if Ascii.eqb c "{" then
                match expect "}" (skip_ws r) with
                | Some rest' => Some (JObj [], rest')
                | None =>
                    match parse_members host fuel' r with
                    | Some (members, rest') => Some (JObj (object_of members), rest')
                    | None => None
                    end
                end
              else parse_number host (String c r)).
    { intros fuel'. now rewrite parse_value_S, Hs. }
    unfold option_map.
    destruct (Ascii.eqb c "n") eqn:E1.
    { destruct (expect "ull" r) as [r'|] eqn:Ex; [|discriminate]. intros [= <- <-].
      apply expect_length in Ex as Hl. split; [lia|]. intros [|g] Hle; [lia|].
      rewrite Hany. reflexivity. }
    destruct (Ascii.eqb c "t") eqn:E2.
    { destruct (expect "rue" r) as [r'|] eqn:Ex; [|discriminate]. intros [= <- <-].
      apply expect_length in Ex as Hl. split; [lia|]. intros [|g] Hle; [lia|].
      rewrite Hany. reflexivity. }
    destruct (Ascii.eqb c "f") eqn:E3.
    { destruct (expect "alse" r) as [r'|] eqn:Ex; [|discriminate]. intros [= <- <-].
      apply expect_length in Ex as Hl. split; [lia|]. intros [|g] Hle; [lia|].
      rewrite Hany. reflexivity. }
    destruct (Ascii.eqb c dquote) eqn:E4.
    { destruct (parse_chars r) as [[str r']|] eqn:Ex; [|discriminate]. intros [= <- <-].
      apply parse_chars_length in Ex as Hl. split; [lia|]. intros [|g] Hle; [lia|].
      rewrite Hany. reflexivity. }
    destruct (Ascii.eqb c "[") eqn:E5.
    { destruct (expect "]" (skip_ws r)) as [r'|] eqn:Ex.
      - intros [= <- <-]. apply expect_length in Ex as Hl.
        pose proof (skip_ws_length r). split; [lia|]. intros [|g] Hle; [lia|].
        rewrite Hany. reflexivity.
      - destruct (parse_elements host fuel r) as [[items r']|] eqn:Ee; [|discriminate].
        intros [= <- <-]. destruct (IHe _ _ _ Ee) as [Hl Hg]. split; [lia|].
        intros [|g] Hle; [lia|].
        rewrite Hany, Hg by lia. reflexivity. }
    destruct (Ascii.eqb c "{") eqn:E6.
    { destruct (expect "}" (skip_ws r)) as [r'|] eqn:Ex.
      - intros [= <- <-]. apply expect_length in Ex as Hl.
        pose proof (skip_ws_length r). split; [lia|]. intros [|g] Hle; [lia|].
        rewrite Hany. reflexivity.
      - destruct (parse_members host fuel r) as [[ms r']|] eqn:Ee; [|discriminate].
        intros [= <- <-]. destruct (IHm _ _ _ Ee) as [Hl Hg]. split; [lia|].
        intros [|g] Hle; [lia|].
        rewrite Hany, Hg by lia. reflexivity. }
    intros Hnum. apply parse_number_length in Hnum as Hl. cbn [String.length] in Hl.
    split; [lia|]. intros [|g] Hle; [lia|].
    now rewrite Hany.
  - intros vs rest. rewrite parse_elements_S.
    destruct (parse_value host fuel s) as [[v r1]|] eqn:Ev; [|discriminate].
    destruct (IHv _ _ _ Ev) as [Hl1 Hg1].
    pose proof (skip_ws_length r1) as Hws.
    destruct (skip_ws r1) as [|c r2] eqn:Hs; [discriminate|]. cbn [String.length] in Hws.
    destruct (Ascii.eqb c ",") eqn:E1.
    + destruct (parse_elements host fuel r2) as [[vs' r3]|] eqn:Ee; [|discriminate].
      intros [= <- <-]. destruct (IHe _ _ _ Ee) as [Hl2 Hg2]. split; [lia|].
      intros [|g] Hle; [lia|].
      rewrite parse_elements_S, Hg1, Hs, E1, Hg2; [reflexivity|lia|lia].
    + destruct (Ascii.eqb c "]") eqn:E2; [|discriminate]. intros [= <- <-]. split; [lia|].
      intros [|g] Hle; [lia|].
      rewrite parse_elements_S, Hg1, Hs, E1, E2; [reflexivity|lia].
  - intros ms rest. rewrite parse_members_S.
    pose proof (skip_ws_length s) as Hws0.
    destruct (expect (String dquote EmptyString) (skip_ws s)) as [s1|] eqn:Eq; [|discriminate].
    apply expect_length in Eq as Hq.
    destruct (parse_chars s1) as [[k s2]|] eqn:Ek; [|discriminate].
    apply parse_chars_length in Ek as Hk.
    pose proof (skip_ws_length s2) as Hws2.
    destruct (expect ":" (skip_ws s2)) as [s3|] eqn:Ec; [|discriminate].
    apply expect_length in Ec as Hc.
    destruct (parse_value host fuel s3) as [[v r1]|] eqn:Ev; [|discriminate].
    destruct (IHv _ _ _ Ev) as [Hl1 Hg1].
    pose proof (skip_ws_length r1) as Hws.
    destruct (skip_ws r1) as [|c r2] eqn:Hs; [discriminate|]. cbn [String.length] in Hws.
    destruct (Ascii.eqb c ",") eqn:E1.
    + destruct (parse_members host fuel r2) as [[ms' r3]|] eqn:Ee; [|discriminate].
      intros [= <- <-]. destruct (IHm _ _ _ Ee) as [Hl2 Hg2]. split; [lia|].
      intros [|g] Hle; [lia|].
      rewrite parse_members_S, Eq, Ek, Ec, Hg1, Hs, E1, Hg2; [reflexivity|lia|lia].
    + destruct (Ascii.eqb c "}") eqn:E2; [|discriminate]. intros [= <- <-]. split; [lia|].
      intros [|g] Hle; [lia|].
      rewrite parse_members_S, Eq, Ek, Ec, Hg1, Hs, E1, E2; [reflexivity|lia].
Qed.

(** The fuel that [parse] gives is enough: a text that [parse] refuses is
    read with no fuel at all. *)
Theorem parse_refuses text :
  parse host text = None ->
  forall fuel v rest,
    parse_value host fuel text = Some (v, rest) -> skip_ws rest <> EmptyString.
Proof.
  intros Hnone fuel v rest Hv Hrest.
  destruct (proj1 (parse_fuel fuel) _ _ _ Hv) as [_ Hg].
  unfold parse in Hnone. rewrite (Hg (S (String.length text))), Hrest in Hnone by lia.
  discriminate.
Qed.

(** No printed value of the program is the empty text, the falsy string. *)
Lemma stringify_nonempty v : Json.valid host v = true -> stringify v <> EmptyString.
Proof. intros H. destruct (stringify_start v H) as (c & tail & -> & _). discriminate. Qed.

End Reading.

(** Printing does not tell a value from what JSON text holds of it. *)
Lemma stringify_norm v : stringify (Json.norm v) = stringify v.
Proof.
  induction v as [| b | x | str | items IH | fields IH] using Json.nested_ind;
    try reflexivity.
  - now destruct x.
  - cbn [Json.norm]. rewrite !stringify_arr. f_equal.
    induction IH as [|y l Hy _ IHl]; [reflexivity|].
    destruct l as [|z l].
    + cbn [map elements]. now rewrite Hy.
    + change (elements (y :: z :: l)) with (stringify y +:+ "," +:+ elements (z :: l)).
      change (elements (map Json.norm (y :: z :: l)))
        with (stringify (Json.norm y) +:+ "," +:+ elements (map Json.norm (z :: l))).
      now rewrite Hy, IHl.
  - rewrite JsonFacts.norm_obj, !stringify_obj. f_equal.
    induction IH as [|[k y] l Hy _ IHl]; [reflexivity|]. cbn [snd] in Hy.
    destruct l as [|[k' z] l].
    + cbn [Json.norm_fields map members fst snd]. now rewrite Hy.
    + change (members ((k, y) :: (k', z) :: l))
        with (quote k +:+ ":" +:+ stringify y +:+ "," +:+ members ((k', z) :: l)).
      change (members (Json.norm_fields ((k, y) :: (k', z) :: l)))
        with (quote k +:+ ":" +:+ stringify (Json.norm y) +:+ ","
              +:+ members (Json.norm_fields ((k', z) :: l))).
      now rewrite Hy, IHl.
Qed.

(** Two values that JSON text holds alike are printed alike. *)
Lemma stringify_same v v' : Json.norm v = Json.norm v' -> stringify v = stringify v'.
Proof. intros H. now rewrite <- (stringify_norm v), H, stringify_norm. Qed.

End JSONFacts.
(** ** The window *)

Section WindowFacts.
Variable host : Host.
Implicit Types (t : StorageType) (w : window) (n : string).

Lemma area_with_area t f c w : area t (with_area t f c w) = f (area t w).
Proof. destruct t; reflexivity. Qed.

Lemma area_with_area_other t f c w : area (other t) (with_area t f c w) = area (other t) w.
Proof. destruct t; reflexivity. Qed.

Lemma calls_with_area t f c w : calls (with_area t f c w) = calls w ++ [c].
Proof. destruct t; reflexivity. Qed.

Lemma with_area_id_stores t c w :
  localStorage (with_area t id c w) = localStorage w /\
  sessionStorage (with_area t id c w) = sessionStorage w.
Proof. destruct t; split; reflexivity. Qed.

Lemma truthy_string_nonempty n : n <> EmptyString -> truthy_string (Some n) = true.
Proof. destruct n; [congruence|reflexivity]. Qed.

Lemma or_default_nonempty n : n <> EmptyString -> or_default (Some n) = n.
Proof. destruct n; [congruence|reflexivity]. Qed.

Lemma or_default_stringify v :
  Json.valid host v = true -> or_default (Some (JSON.stringify v)) = JSON.stringify v.
Proof. intros H. eapply or_default_nonempty, JSONFacts.stringify_nonempty, H. Qed.

Lemma parse_empty : JSON.parse host EmptyString = None.
Proof. reflexivity. Qed.

Lemma parse_default : JSON.parse host "{}" = Some (JObj []).
Proof. reflexivity. Qed.

(** A stored text that decodes is the text that the operations decode. *)
Lemma or_default_decodes text v :
  JSON.parse host text = Some v -> or_default (Some text) = text.
Proof. destruct text; [discriminate|reflexivity]. Qed.

End WindowFacts.

(** ** One step of each operation *)

Section Steps.
Variable host : Host.
Implicit Types (t : StorageType) (w : window) (n : string) (i : option string).

#[local] Arguments JSON.parse : simpl never.
#[local] Arguments JSON.stringify : simpl never.

Lemma get_step t n i v w :
  n <> EmptyString ->
  get host (request t n i v) w =
  (match decoded host t n w with
   | Some r => if truthy_string i then get_prop host r (key_of i) else Return (JData r)
   | None => Throw SyntaxError
   end, read t n w).
Proof.
  destruct n as [|c n]; [congruence|]. intros _.
  unfold get, request, decoded, read, bind, lift, ret, getItem, window_storage, JSON_parse.
  cbn. destruct (JSON.parse _ _); [destruct (truthy_string i)|]; reflexivity.
Qed.

Lemma set_step t n i v w :
  n <> EmptyString -> truthy (Some v) = true ->
  set host (request t n i (Some v)) w =
  match decoded host t n w with
  | None => (Throw SyntaxError, read t n w)
  | Some r =>
      if truthy_string i then
        match set_prop host r (key_of i) (Some v) with
        | Return r' => (Return tt, written t n (JSON.stringify r') w)
        | Throw e => (Throw e, read t n w)
        end
      else (Return tt, written t n (JSON.stringify v) w)
  end.
Proof.
  destruct n as [|c n]; [congruence|]. intros _ Hv.
  unfold set, request, decoded, read, written, bind, lift, ret, getItem, setItem,
    window_storage, JSON_parse, JSON_stringify.
  cbn [ensureParams prop_truthy type name item value String.eqb Ascii.eqb Bool.eqb
       truthy_string key_of].
  rewrite Hv. cbn [fst snd].
  destruct (JSON.parse _ _); [|reflexivity].
  destruct (truthy_string i); [|reflexivity].
  destruct (set_prop _ _ _ _); reflexivity.
Qed.

Lemma remove_step t n i v w :
  n <> EmptyString ->
  remove host (request t n i v) w =
  if truthy_string i then
    match decoded host t n w with
    | None => (Throw SyntaxError, read t n w)
    | Some r =>
        match delete_prop host r (key_of i) with
        | Return r' => (Return tt, written t n (JSON.stringify r') w)
        | Throw e => (Throw e, read t n w)
        end
    end
  else (Return tt, with_area t (delete n) (RemoveItem t n) w).
Proof.
  destruct n as [|c n]; [congruence|]. intros _.
  unfold remove, request, decoded, read, written, bind, lift, ret, getItem, setItem,
    removeItem, window_storage, JSON_parse, JSON_stringify.
  cbn [ensureParams prop_truthy type name item value String.eqb Ascii.eqb Bool.eqb
       truthy_string key_of].
  destruct (truthy_string i); [|reflexivity].
  destruct (JSON.parse _ _); [|reflexivity].
  destruct (delete_prop _ _ _); reflexivity.
Qed.

Lemma clear_step t w :
  clear (Some t) w = (Return tt, with_area t (fun _ => ∅) (ClearAll t) w).
Proof. reflexivity. Qed.

(** What is decoded after a write of a printed value: the value as JSON
    text holds it. *)
Lemma decoded_written t n v w :
  Json.valid host v = true ->
  decoded host t n (written t n (JSON.stringify v) w) = Some (Json.norm v).
Proof.
  intros Hv. unfold decoded, written. rewrite area_with_area, lookup_insert_eq.
  rewrite (or_default_stringify host) by assumption.
  now apply JSONFacts.parse_stringify_norm.
Qed.

Lemma decoded_written_wf t n v w :
  Json.wf host v = true -> decoded host t n (written t n (JSON.stringify v) w) = Some v.
Proof.
  intros Hwf. rewrite decoded_written by now apply JsonFacts.wf_valid.
  now rewrite (JsonFacts.wf_norm host).
Qed.

Lemma decoded_read t n n' w : decoded host t n' (read t n w) = decoded host t n' w.
Proof. unfold decoded, read. now rewrite area_with_area. Qed.

Lemma decoded_valid t n w r : decoded host t n w = Some r -> Json.valid host r = true.
Proof. apply JSONFacts.parse_valid. Qed.

(** [get] of an item after the write of an object. *)
Lemma get_item_written t n (j : string) fields w :
  n <> EmptyString -> j <> EmptyString -> Json.valid host (JObj fields) = true ->
  outcome (get host (request t n (Some j) None))
    (written t n (JSON.stringify (JObj fields)) w)
  = match Json.lookup j fields with
    | Some x => Return (JData (Json.norm x))
    | None => Return (inherited host KObject j)
    end.
Proof.
  intros Hn Hj Hv. unfold outcome.
  rewrite get_step, decoded_written, (truthy_string_nonempty j) by assumption.
  rewrite JsonFacts.norm_obj. cbn [get_prop key_of fst].
  rewrite JsonFacts.lookup_norm. now destruct (Json.lookup j fields).
Qed.

Lemma get_item_object t n (j : string) fields w :
  n <> EmptyString -> j <> EmptyString -> decoded host t n w = Some (JObj fields) ->
  outcome (get host (request t n (Some j) None)) w
  = match Json.lookup j fields with
    | Some x => Return (JData x)
    | None => Return (inherited host KObject j)
    end.
Proof.
  intros Hn Hj Hdec. unfold outcome.
  rewrite get_step, Hdec, (truthy_string_nonempty j) by assumption.
  cbn [get_prop key_of fst]. now destruct (Json.lookup j fields).
Qed.

(** What is decoded from a text that [JSON.stringify] printed, as every
    text is that [set] or [remove] stored, is held by JSON text without
    loss. *)
Lemma decoded_printed t n v r w :
  Json.valid host v = true -> area t w !! n = Some (JSON.stringify v) ->
  decoded host t n w = Some r -> Json.wf host r = true.
Proof.
  intros Hv Htext. unfold decoded.
  rewrite Htext, (or_default_stringify host), JSONFacts.parse_stringify_norm by assumption.
  intros [= <-]. now apply JsonFacts.valid_norm_wf.
Qed.

Lemma lookup_wf k fields x :
  Json.wf host (JObj fields) = true -> Json.lookup k fields = Some x -> Json.wf host x = true.
Proof.
  cbn [Json.wf]. intros [_ Hall]%andb_prop.
  induction fields as [|[k' v'] fields IH]; cbn [Json.lookup forallb snd] in *; [discriminate|].
  apply andb_prop in Hall as [Hv Hall].
  destruct (String.eqb k k'); [now intros [= <-]|now apply IH].
Qed.

(** An item that JSON text holds without loss reads the same before and
    after the object is written again. *)
Lemma get_item_kept t n (j : string) fields fields' w :
  n <> EmptyString -> j <> EmptyString ->
  decoded host t n w = Some (JObj fields) -> Json.valid host (JObj fields') = true ->
  Json.lookup j fields' = Json.lookup j fields ->
  (forall x, Json.lookup j fields = Some x -> Json.wf host x = true) ->
  outcome (get host (request t n (Some j) None))
    (written t n (JSON.stringify (JObj fields')) w)
  = outcome (get host (request t n (Some j) None)) w.
Proof.
  intros Hn Hj Hdec Hv Hsame Hwf.
  rewrite get_item_written, (get_item_object t n j fields w), Hsame by assumption.
  destruct (Json.lookup j fields) as [x|]; [|reflexivity].
  now rewrite (JsonFacts.wf_norm host x) by now apply Hwf.
Qed.

End Steps.

(** ** The properties of the specification *)

Section Claims.
Variable host : Host.
Implicit Types (t : StorageType) (w : window) (n : string) (props : StorageProps).

#[local] Arguments JSON.parse : simpl never.
#[local] Arguments JSON.stringify : simpl never.

(** *** Missing parameters *)

Lemma ensureParams_missing required props field :
  In field required -> prop_truthy props field = false ->
  exists f, In f required /\ prop_truthy props f = false /\
            ensureParams required props = Throw (missing f).
Proof.
  induction required as [|p required IH]; [intros []|].
  intros Hin Hfalse. cbn [ensureParams]. destruct (prop_truthy props p) eqn:Hp.
  - destruct Hin as [->|Hin]; [congruence|].
    destruct (IH Hin Hfalse) as (f & Hf & Hff & Heq). exists f. repeat split; auto. now right.
  - exists p. repeat split; auto. now left.
Qed.

(** C4. A request that lacks a required field, or has a falsy value in it,
    makes the operation throw the error of [ensureParams], whose message
    names such a field, and leaves the window exactly as it was: the stored
    entries are the same and no call was made on either storage area. The
    required fields are [type] and [name] for [get] and [remove], these and
    [value] for [set], and [type] for [clear]. *)
Theorem missing_parameter_fails_fast props w field :
  prop_truthy props field = false ->
  (In field ["type"; "name"] ->
   exists f, In f ["type"; "name"] /\ prop_truthy props f = false /\
             get host props w = (Throw (missing f), w) /\
             remove host props w = (Throw (missing f), w)) /\
  (In field ["type"; "name"; "value"] ->
   exists f, In f ["type"; "name"; "value"] /\ prop_truthy props f = false /\
             set host props w = (Throw (missing f), w)) /\
  (field = "type" -> clear (type props) w = (Throw (missing "type"), w)).
Proof.
  intros Hfalse. destruct props as [ty nm it v]. repeat split.
  - intros Hin.
    set (reduced := {| type := ty; name := nm; item := None; value := None |}).
    assert (Hred : forall f, In f ["type"; "name"] ->
                             prop_truthy reduced f = prop_truthy (Build_StorageProps ty nm it v) f).
    { intros f [<-|[<-|[]]]; reflexivity. }
    destruct (ensureParams_missing ["type"; "name"] reduced field Hin) as (f & Hf & Hff & Heq).
    { now rewrite Hred. }
    exists f. rewrite <- Hred by assumption. repeat split; auto.
    + unfold get, bind, lift. fold reduced. now rewrite Heq.
    + unfold remove, bind, lift. fold reduced. now rewrite Heq.
  - intros Hin.
    set (reduced := {| type := ty; name := nm; item := None; value := v |}).
    assert (Hred : forall f, In f ["type"; "name"; "value"] ->
                             prop_truthy reduced f = prop_truthy (Build_StorageProps ty nm it v) f).
    { intros f [<-|[<-|[<-|[]]]]; reflexivity. }
    destruct (ensureParams_missing ["type"; "name"; "value"] reduced field Hin)
      as (f & Hf & Hff & Heq).
    { now rewrite Hred. }
    exists f. rewrite <- Hred by assumption. repeat split; auto.
    unfold set, bind, lift. fold reduced. now rewrite Heq.
  - intros ->. cbn in Hfalse. destruct ty; [discriminate|]. reflexivity.
Qed.

(** *** The empty item *)

(** C8. With the empty string as [item], [get], [set] and [remove] do what
    they do without an [item], on every request and window. With a namespace
    and a non-empty name that is: [get] returns the whole Record that the
    entry decodes to, not a field of it; [set] of a truthy value stores the
    text of that value as the whole entry and adds no field, so that the
    value is the Record that [get] returns next; [remove] deletes the entry
    with one call of [removeItem]. *)
Theorem empty_item_is_no_item (ty : option StorageType) (nm : option string)
    (v : option json) t n w :
  (get host {| type := ty; name := nm; item := Some EmptyString; value := v |} w
   = get host {| type := ty; name := nm; item := None; value := v |} w /\
   set host {| type := ty; name := nm; item := Some EmptyString; value := v |} w
   = set host {| type := ty; name := nm; item := None; value := v |} w /\
   remove host {| type := ty; name := nm; item := Some EmptyString; value := v |} w
   = remove host {| type := ty; name := nm; item := None; value := v |} w) /\
  (n <> EmptyString ->
   (forall r, decoded host t n w = Some r ->
      get host (request t n (Some EmptyString) v) w = (Return (JData r), read t n w)) /\
   (forall x r, truthy (Some x) = true -> Json.valid host x = true ->
      decoded host t n w = Some r ->
      let w' := after (set host (request t n (Some EmptyString) (Some x))) w in
      set host (request t n (Some EmptyString) (Some x)) w
      = (Return tt, written t n (JSON.stringify x) w) /\
      area t w' !! n = Some (JSON.stringify x) /\
      (Json.wf host x = true ->
       outcome (get host (request t n None None)) w' = Return (JData x))) /\
   (let w' := after (remove host (request t n (Some EmptyString) v)) w in
    remove host (request t n (Some EmptyString) v) w
    = (Return tt, with_area t (delete n) (RemoveItem t n) w) /\
    area t w' !! n = None /\
    outcome (get host (request t n None None)) w' = Return (JData (JObj [])))).
Proof.
  split; [repeat split; reflexivity|]. intros Hn. split; [|split].
  - intros r Hdec. rewrite get_step, Hdec by assumption. reflexivity.
  - intros x r Hx _ Hdec. cbv zeta. unfold after.
    rewrite set_step, Hdec by assumption. cbn [truthy_string snd].
    split; [reflexivity|]. split.
    + unfold written. now rewrite area_with_area, lookup_insert_eq.
    + intros Hwf. unfold outcome.
      rewrite get_step, decoded_written_wf by assumption. reflexivity.
  - cbv zeta. unfold after, outcome. rewrite remove_step by assumption.
    cbn [truthy_string snd]. split; [reflexivity|].
    rewrite get_step by assumption. unfold decoded.
    rewrite area_with_area, lookup_delete_eq. split; reflexivity.
Qed.

(** *** clear *)

(** C7. After [clear] on a namespace, [get] on any name of that namespace
    returns the empty mapping, and the entries of the other namespace are
    what they were. *)
Theorem clear_empties_one_namespace t n w :
  n <> EmptyString ->
  outcome (clear (Some t)) w = Return tt /\
  area t (after (clear (Some t)) w) = ∅ /\
  outcome (get host (request t n None None)) (after (clear (Some t)) w)
  = Return (JData (JObj [])) /\
  area (other t) (after (clear (Some t)) w) = area (other t) w.
Proof.
  intros Hn. unfold outcome, after. rewrite clear_step. cbn [fst snd].
  rewrite get_step by assumption. unfold decoded.
  rewrite area_with_area, area_with_area_other, lookup_empty. repeat split; reflexivity.
Qed.

(** *** remove on a name without entry *)

(** C9. On a name that has no entry, [remove] with an item writes the text
    of the empty object under that name: the entry is absent before and
    present after, and [get] returns the empty mapping in both states. *)
Theorem remove_item_creates_entry t n (i : string) w :
  n <> EmptyString -> i <> EmptyString -> area t w !! n = None ->
  let w' := after (remove host (request t n (Some i) None)) w in
  outcome (remove host (request t n (Some i) None)) w = Return tt /\
  area t w' !! n = Some "{}" /\
  outcome (get host (request t n None None)) w = Return (JData (JObj [])) /\
  outcome (get host (request t n None None)) w' = Return (JData (JObj [])).
Proof.
  intros Hn Hi Hnone. unfold outcome, after. cbv zeta.
  rewrite remove_step, (truthy_string_nonempty i) by assumption.
  assert (Hdec : decoded host t n w = Some (JObj [])) by (unfold decoded; now rewrite Hnone).
  rewrite Hdec. cbn [delete_prop Json.erase fst snd].
  change (JSON.stringify (JObj [])) with "{}".
  rewrite !get_step by assumption. rewrite Hdec. unfold decoded, written.
  rewrite area_with_area, lookup_insert_eq. repeat split; reflexivity.
Qed.

(** *** Whole-Record set and get *)

(** X16. The part of the round trip that the code keeps: a truthy value
    that JSON text holds without loss, stored without an item over an entry
    that decodes (or over no entry), is what [get] returns next, whatever
    Record the entry held. *)
Theorem set_then_get t n v r w :
  n <> EmptyString -> truthy (Some v) = true -> Json.wf host v = true ->
  decoded host t n w = Some r ->
  outcome (set host (request t n None (Some v))) w = Return tt /\
  outcome (get host (request t n None None))
    (after (set host (request t n None (Some v))) w) = Return (JData v).
Proof.
  intros Hn Hv Hwf Hdec. unfold outcome, after.
  rewrite set_step, Hdec by assumption. cbn [truthy_string fst snd].
  rewrite get_step, decoded_written_wf by assumption. split; reflexivity.
Qed.

(** C1. The round trip fails for the falsy values: [set] with the value [0]
    throws the error for a missing [value], stores nothing, and the [get]
    that follows returns the empty mapping, not [0]. *)
Theorem falsy_value_is_not_stored :
  set host (request local "x" None (Some (JNum 0))) empty_window
  = (Throw (missing "value"), empty_window) /\
  outcome (get host (request local "x" None None))
    (after (set host (request local "x" None (Some (JNum 0)))) empty_window)
  = Return (JData (JObj [])).
Proof. split; reflexivity. Qed.

(** *** Item-qualified set *)

(** C2, as amended. When the entry decodes to an object (no entry decodes to
    the empty object), a [set] of a truthy value that JSON text holds without
    loss, under an item other than [__proto__], succeeds; the [get] of that
    item then returns the value; and the [get] of every other item returns
    what it returned before, provided that the value under that item is held
    by JSON text without loss: [set] prints the whole Record again, and the
    printing turns a negative zero into zero and an infinity, which is how
    the host reads a number literal beyond the range of the doubles, into
    [null]. *)
Theorem set_item_then_get t n (i : string) v fields w :
  n <> EmptyString -> i <> EmptyString -> i <> "__proto__" ->
  truthy (Some v) = true -> Json.wf host v = true ->
  decoded host t n w = Some (JObj fields) ->
  let w' := after (set host (request t n (Some i) (Some v))) w in
  outcome (set host (request t n (Some i) (Some v))) w = Return tt /\
  outcome (get host (request t n (Some i) None)) w' = Return (JData v) /\
  forall j : string,
    j <> EmptyString -> j <> i ->
    (forall x, Json.lookup j fields = Some x -> Json.wf host x = true) ->
    outcome (get host (request t n (Some j) None)) w'
    = outcome (get host (request t n (Some j) None)) w.
Proof.
  intros Hn Hi Hproto Hv Hwf Hdec. unfold after. cbv zeta.
  assert (Hset : set host (request t n (Some i) (Some v)) w
                 = (Return tt, written t n (JSON.stringify (JObj (Json.update i v fields))) w)).
  { rewrite set_step, Hdec, (truthy_string_nonempty i) by assumption.
    cbn [set_prop key_of]. apply String.eqb_neq in Hproto as ->.
    now destruct (Json.lookup i fields). }
  unfold outcome at 1. rewrite Hset. cbn [fst snd].
  assert (Hvalid : Json.valid host (JObj (Json.update i v fields)) = true).
  { apply JsonFacts.update_valid; [eapply decoded_valid, Hdec|now apply JsonFacts.wf_valid]. }
  split; [reflexivity|]. split.
  - rewrite get_item_written, JsonFacts.lookup_update_eq by assumption.
    now rewrite (JsonFacts.wf_norm host v).
  - intros j Hj Hji Hkept.
    apply (get_item_kept host t n j fields); try assumption.
    now apply JsonFacts.lookup_update_ne.
Qed.

(** *** Item-qualified set on a primitive *)

(** C10, as amended. When the entry decodes to a number, a string or a
    boolean, a [set] of a truthy value under an item other than [__proto__]
    throws a [TypeError] after its read and before any write: the stored
    entries are what they were, and the Record still is that primitive. *)
Theorem set_item_on_primitive t n (i : string) v r w :
  n <> EmptyString -> i <> EmptyString -> i <> "__proto__" ->
  truthy (Some v) = true ->
  decoded host t n w = Some r -> primitive r = true ->
  let w' := after (set host (request t n (Some i) (Some v))) w in
  outcome (set host (request t n (Some i) (Some v))) w = Throw TypeError /\
  w' = read t n w /\
  localStorage w' = localStorage w /\ sessionStorage w' = sessionStorage w /\
  decoded host t n w' = Some r.
Proof.
  intros Hn Hi Hproto Hv Hdec Hprim. unfold outcome, after. cbv zeta.
  rewrite set_step, Hdec, (truthy_string_nonempty i) by assumption.
  assert (Hset : set_prop host r (key_of (Some i)) (Some v) = Throw TypeError).
  { apply String.eqb_neq in Hproto. destruct r; try discriminate; cbn [set_prop key_of];
      now rewrite Hproto. }
  rewrite Hset. cbn [fst snd]. rewrite decoded_read.
  destruct (with_area_id_stores t (GetItem t n) w). repeat split; assumption.
Qed.

(** *** get and remove on what is not there *)

(** C5, as amended. With [type] and [name] supplied: on a name without entry
    [get] returns the empty mapping and [remove] returns and leaves both
    areas as they were; and when the Record (the empty object if there is no
    entry) is not [null] and has a non-empty item neither as its own property
    nor by inheritance, [get] of the item returns [undefined], and [remove]
    of the item returns and leaves the Record as JSON text holds it: as it
    was, unless it has a negative zero or an infinity in it, which the
    printing turns into zero and [null]. *)
Theorem get_remove_without_target t n w :
  n <> EmptyString ->
  (area t w !! n = None ->
   outcome (get host (request t n None None)) w = Return (JData (JObj [])) /\
   outcome (remove host (request t n None None)) w = Return tt /\
   area t (after (remove host (request t n None None)) w) = area t w /\
   area (other t) (after (remove host (request t n None None)) w) = area (other t) w) /\
  (forall (i : string) r,
      i <> EmptyString -> decoded host t n w = Some r -> lacks host r i ->
      outcome (get host (request t n (Some i) None)) w = Return JUndefined /\
      outcome (remove host (request t n (Some i) None)) w = Return tt /\
      decoded host t n (after (remove host (request t n (Some i) None)) w)
      = Some (Json.norm r) /\
      (Json.wf host r = true ->
       decoded host t n (after (remove host (request t n (Some i) None)) w) = Some r)).
Proof.
  intros Hn. unfold outcome, after. split.
  - intros Hnone. rewrite get_step, remove_step by assumption. cbn [truthy_string fst snd].
    unfold decoded. rewrite Hnone, area_with_area, area_with_area_other.
    repeat split; try reflexivity. now apply delete_id.
  - intros i r Hi Hdec (Hown & kd & Hkind & Hinh).
    rewrite get_step, remove_step, Hdec, (truthy_string_nonempty i) by assumption.
    assert (Hget : get_prop host r (key_of (Some i)) = Return JUndefined).
    { destruct r as [| b | z | str | items | fields]; cbn [kind_of] in Hkind;
        simplify_eq; cbn [get_prop key_of has_own] in *.
      - now rewrite Hinh.
      - now rewrite Hinh.
      - destruct (string_own host str i); [discriminate|now rewrite Hinh].
      - apply orb_false_elim in Hown as [-> Hidx].
        destruct (array_index i) as [k|]; [|now rewrite Hinh].
        apply Nat.ltb_ge in Hidx. rewrite (lookup_ge_None_2 items k Hidx). now rewrite Hinh.
      - destruct (Json.lookup i fields); [discriminate|now rewrite Hinh]. }
    assert (Hdel : delete_prop host r (key_of (Some i)) = Return r).
    { destruct r as [| b | z | str | items | fields]; cbn [kind_of] in Hkind;
        simplify_eq; cbn [delete_prop key_of has_own] in *; try reflexivity.
      - now destruct (string_own host str i).
      - apply orb_false_elim in Hown as [-> Hidx].
        destruct (array_index i) as [k|]; [|reflexivity]. now rewrite Hidx.
      - destruct (Json.lookup i fields) eqn:E; [discriminate|].
        now rewrite JsonFacts.erase_absent. }
    rewrite Hget, Hdel. cbn [fst snd].
    rewrite decoded_written by (eapply decoded_valid, Hdec).
    repeat split. intros Hwf. now rewrite (JsonFacts.wf_norm host r).
Qed.

(** *** remove twice *)

(** C6, as amended. When the entry decodes to an object (no entry decodes to
    the empty object), [remove] of an item returns, and a second [remove] of
    it returns too and leaves every stored entry as the first left it; after
    the removal the item is no own property, so [get] of it returns what
    objects inherit under that name, which is [undefined] unless the name is
    a member of [Object.prototype]; and [get] of every other item returns
    what it returned before, provided that the value under that item is held
    by JSON text without loss: [remove] prints the whole Record again, and
    the printing turns a negative zero into zero and an infinity into
    [null]. *)
Theorem remove_item_twice t n (i : string) fields w :
  n <> EmptyString -> i <> EmptyString ->
  decoded host t n w = Some (JObj fields) ->
  let rm := remove host (request t n (Some i) None) in
  let w1 := after rm w in
  let w2 := after rm w1 in
  outcome rm w = Return tt /\ outcome rm w1 = Return tt /\
  localStorage w2 = localStorage w1 /\ sessionStorage w2 = sessionStorage w1 /\
  outcome (get host (request t n (Some i) None)) w1 = Return (inherited host KObject i) /\
  forall j : string,
    j <> EmptyString -> j <> i ->
    (forall x, Json.lookup j fields = Some x -> Json.wf host x = true) ->
    outcome (get host (request t n (Some j) None)) w1
    = outcome (get host (request t n (Some j) None)) w.
Proof.
  intros Hn Hi Hdec. unfold after. cbv zeta.
  assert (Hvalid : Json.valid host (JObj (Json.erase i fields)) = true).
  { apply JsonFacts.erase_valid. eapply decoded_valid, Hdec. }
  assert (Hrm : remove host (request t n (Some i) None) w
                = (Return tt, written t n (JSON.stringify (JObj (Json.erase i fields))) w)).
  { now rewrite remove_step, Hdec, (truthy_string_nonempty i) by assumption. }
  rewrite Hrm. cbn [snd].
  assert (Hrm' : remove host (request t n (Some i) None)
                   (written t n (JSON.stringify (JObj (Json.erase i fields))) w)
                 = (Return tt,
                    written t n (JSON.stringify (JObj (Json.erase i fields)))
                      (written t n (JSON.stringify (JObj (Json.erase i fields))) w))).
  { rewrite remove_step, decoded_written, (truthy_string_nonempty i) by assumption.
    rewrite JsonFacts.norm_obj. cbn [delete_prop key_of].
    rewrite (JSONFacts.stringify_same
               (JObj (Json.erase i (Json.norm_fields (Json.erase i fields))))
               (JObj (Json.erase i fields))); [reflexivity|].
    rewrite !JsonFacts.norm_obj.
    now rewrite <- JsonFacts.erase_norm, JsonFacts.norm_fields_norm, JsonFacts.erase_norm,
      JsonFacts.erase_erase. }
  unfold outcome. rewrite Hrm, Hrm'. cbn [fst snd].
  repeat split.
  - unfold written, read. destruct t; cbn [with_area localStorage id]; [|reflexivity].
    now rewrite insert_insert_eq.
  - unfold written, read. destruct t; cbn [with_area sessionStorage id]; [reflexivity|].
    now rewrite insert_insert_eq.
  - fold (outcome (get host (request t n (Some i) None))
            (written t n (JSON.stringify (JObj (Json.erase i fields))) w)).
    now rewrite get_item_written, JsonFacts.lookup_erase_eq by assumption.
  - intros j Hj Hji Hkept.
    apply (get_item_kept host t n j fields); try assumption.
    now apply JsonFacts.lookup_erase_ne.
Qed.

(** *** chain *)

(** A computation that can only return the [this] of the module. *)
Lemma returns_this_ret w (x : option accessor) :
  outcome (ret this) w = Return x -> x = None.
Proof. unfold outcome, ret, this. cbn [fst]. congruence. Qed.

Lemma returns_this_bind {A} (m : js A) (k : A -> js (option accessor)) :
  (forall a w x, outcome (k a) w = Return x -> x = None) ->
  forall w x, outcome (bind m k) w = Return x -> x = None.
Proof.
  intros Hk w x. unfold outcome, bind. destruct (m w) as [[a|e] w']; cbn [fst].
  - apply Hk.
  - discriminate.
Qed.

(** C3. No mutating method of a bound accessor returns that accessor: each
    returns the [this] of the module, [undefined], so the chain that the
    README shows throws a [TypeError] at its second call. *)
Theorem chain_methods_do_not_return_the_accessor c (i : option string) (v : option json) w :
  outcome (chain_set host c i v) w <> Return (Some c) /\
  outcome (chain_remove host c i) w <> Return (Some c) /\
  outcome (chain_clear c) w <> Return (Some c) /\
  outcome (chain_set host (chain (request local "userData" None None))
             (Some "userId") (Some (JNum 456))) empty_window = Return None /\
  outcome (x <- chain_set host (chain (request local "userData" None None))
                  (Some "userId") (Some (JNum 456)) ;;
           on x (fun c' => chain_set host c' (Some "name") (Some (JStr "Jane Doe"))))
    empty_window = Throw TypeError.
Proof.
  repeat split; try reflexivity; intros H;
    enough (Some c = None) by discriminate;
    revert H; unfold chain_set, chain_remove, chain_clear;
    repeat (apply returns_this_bind; intros ?); apply returns_this_ret.
Qed.

End Claims.

(** ** The properties at concrete requests *)

(** The scenario of the README: the whole Record is stored, one field is
    read, one field is replaced, and the whole Record is read. *)
Example user_data_scenario :
  let john := JObj [("userId", JNum 123); ("name", JStr "John Doe")] in
  let w1 := after (set example_host (request local "userData" None (Some john))) empty_window in
  let w2 := after (set example_host
                     (request local "userData" (Some "name") (Some (JStr "Jane Doe")))) w1 in
  outcome (get example_host (request local "userData" (Some "userId") None)) w1
  = Return (JData (JNum 123)) /\
  outcome (get example_host (request local "userData" None None)) w2
  = Return (JData (JObj [("userId", JNum 123); ("name", JStr "Jane Doe")])) /\
  calls w2 = [GetItem local "userData";
              SetItem local "userData" (JSON.stringify john);
              GetItem local "userData";
              SetItem local "userData"
                (JSON.stringify (JObj [("userId", JNum 123); ("name", JStr "Jane Doe")]))].
Proof. vm_compute. repeat split; reflexivity. Qed.

(** New fields whose names are array indices are enumerated, and printed,
    before the others and in ascending order. *)
Example index_names_come_first :
  let w1 := after (set example_host (request local "u" None (Some (JObj [("b", JNum 1)]))))
              empty_window in
  let w2 := after (set example_host (request local "u" (Some "10") (Some (JNum 2)))) w1 in
  let w3 := after (set example_host (request local "u" (Some "2") (Some (JNum 3)))) w2 in
  area local w3 !! "u"
  = Some (JSON.stringify (JObj [("2", JNum 3); ("10", JNum 2); ("b", JNum 1)])).
Proof. vm_compute. reflexivity. Qed.

(** Numbers that are no integers are stored and read back like the
    others. *)
Example fraction_round_trip :
  let price := JObj [("price", JNum (Finite "9.99")); ("rate", JNum (Finite "1.5e-7"))] in
  let w := after (set example_host (request local "item" None (Some price))) empty_window in
  Json.wf example_host price = true /\
  outcome (get example_host (request local "item" None None)) w = Return (JData price) /\
  outcome (get example_host (request local "item" (Some "price") None)) w
  = Return (JData (JNum (Finite "9.99"))).
Proof. vm_compute. repeat split; reflexivity. Qed.

(** Number literals are read as doubles: [1e2] is [100], an integer beyond
    2^53 is rounded, 10^21 is printed with an exponent, and [-0.0] is the
    negative zero, which is printed as [0]. *)
Example numbers_are_doubles :
  let w := entry local "n" "[1e2,9007199254740993,1000000000000000000000,-0.0]" in
  let w' := after (set example_host (request local "n" (Some "0") (Some (JNum 7)))) w in
  decoded example_host local "n" w
  = Some (JArr [JNum 100; JNum 9007199254740992; JNum (Finite "1e+21"); JNum NegativeZero]) /\
  area local w' !! "n" = Some "[7,9007199254740992,1e+21,0]".
Proof. vm_compute. split; reflexivity. Qed.

(** The escapes of the two halves of a character beyond the Basic
    Multilingual Plane are read as the two code units, which are printed as
    they are; a half without its other half is printed as an escape. *)
Example surrogates_are_code_units :
  let high := String "237" (String "160" (String "189" EmptyString)) in
  let low := String "237" (String "184" (String "128" EmptyString)) in
  let text := String JSON.dquote ("\ud83d\ude00\ud83d" +:+ String JSON.dquote EmptyString) in
  JSON.parse example_host text = Some (JStr (high +:+ low +:+ high)) /\
  JSON.stringify (JStr (high +:+ low +:+ high))
  = String JSON.dquote (high +:+ low +:+ "\ud83d" +:+ String JSON.dquote EmptyString).
Proof. vm_compute. split; reflexivity. Qed.

(** A number literal beyond the range of the doubles is read as an infinity,
    and every operation that prints the Record again turns it into [null]:
    here a [remove] of an item that the Record does not have. *)
Example number_beyond_the_doubles_is_not_kept :
  let w := entry local "u" ("{" +:+ JSON.quote "big" +:+ ":1e999}") in
  let w' := after (remove example_host (request local "u" (Some "x") None)) w in
  decoded example_host local "u" w = Some (JObj [("big", JNum PositiveInfinity)]) /\
  outcome (get example_host (request local "u" (Some "big") None)) w
  = Return (JData (JNum PositiveInfinity)) /\
  area local w' !! "u" = Some (JSON.stringify (JObj [("big", JNull)])) /\
  outcome (get example_host (request local "u" (Some "big") None)) w' = Return (JData JNull).
Proof. vm_compute. repeat split; reflexivity. Qed.

(** A name inherited from [Object.prototype] reads as the built-in. *)
Example inherited_name_is_not_undefined :
  outcome (get example_host (request local "x" (Some "toString") None)) empty_window
  = Return (JBuiltin "Object.prototype.toString").
Proof. vm_compute. reflexivity. Qed.

(** C4 at [set({type: 'local', name: 'x'})]: the error names [value] and the
    window is untouched. *)
Lemma missing_parameter_fails_fast_witness :
  prop_truthy (request local "x" None None) "value" = false /\
  exists f, In f ["type"; "name"; "value"] /\
            prop_truthy (request local "x" None None) f = false /\
            set example_host (request local "x" None None) (entry local "x" "{}")
            = (Throw (missing f), entry local "x" "{}").
Proof.
  split; [reflexivity|].
  refine (proj1 (proj2 (missing_parameter_fails_fast example_host
            (request local "x" None None) (entry local "x" "{}") "value" _)) _).
  - reflexivity.
  - simpl. auto.
Defined.

(** C8 at a Record that has a field named by the empty string: [get] with
    the empty item returns the Record, not that field; [set] replaces the
    Record by the value; [remove] deletes the entry. *)
Lemma empty_item_is_no_item_witness :
  let record := JObj [(EmptyString, JNum 1); ("a", JNum 2)] in
  let w := entry local "u" (JSON.stringify record) in
  "u" <> EmptyString /\
  decoded example_host local "u" w = Some record /\
  truthy (Some (JNum 7)) = true /\
  Json.valid example_host (JNum 7) = true /\
  outcome (get example_host (request local "u" (Some EmptyString) None)) w
  = Return (JData record) /\
  area local (after (set example_host (request local "u" (Some EmptyString) (Some (JNum 7)))) w)
    !! "u" = Some "7" /\
  area local (after (remove example_host (request local "u" (Some EmptyString) None)) w)
    !! "u" = None.
Proof.
  cbv zeta.
  assert (Hdec : decoded example_host local "u"
                   (entry local "u"
                      (JSON.stringify (JObj [(EmptyString, JNum 1); ("a", JNum 2)])))
                 = Some (JObj [(EmptyString, JNum 1); ("a", JNum 2)]))
    by (vm_compute; reflexivity).
  split; [discriminate|]. split; [exact Hdec|]. split; [reflexivity|]. split; [reflexivity|].
  destruct (proj2 (empty_item_is_no_item example_host (Some local) (Some "u") None local "u"
                     (entry local "u"
                        (JSON.stringify (JObj [(EmptyString, JNum 1); ("a", JNum 2)]))))
              ltac:(discriminate)) as (Hget & Hset & Hrm).
  split; [|split].
  - unfold outcome. now rewrite (Hget _ Hdec).
  - exact (proj1 (proj2 (Hset (JNum 7) _ eq_refl eq_refl Hdec))).
  - exact (proj1 (proj2 Hrm)).
Defined.

(** C7 at a session entry, cleared with the local area untouched. *)
Lemma clear_empties_one_namespace_witness :
  "cart" <> EmptyString /\
  outcome (get example_host (request session "cart" None None))
    (after (clear (Some session)) (entry session "cart" "[1,2]"))
  = Return (JData (JObj [])).
Proof.
  split; [discriminate|].
  refine (proj1 (proj2 (proj2 (clear_empties_one_namespace example_host session "cart"
            (entry session "cart" "[1,2]") _)))).
  discriminate.
Defined.

(** C9 at an empty window. *)
Lemma remove_item_creates_entry_witness :
  area local empty_window !! "cart" = None /\
  area local (after (remove example_host (request local "cart" (Some "coupon") None))
                empty_window) !! "cart" = Some "{}".
Proof.
  split; [reflexivity|].
  refine (proj1 (proj2 (remove_item_creates_entry example_host local "cart" "coupon"
            empty_window _ _ _))); [discriminate|discriminate|reflexivity].
Defined.

(** C2: on an array the assigned property is not printed, so the [get] that
    follows the [set] does not return the value. *)
Lemma set_item_on_array_is_lost :
  let w := after (set example_host (request local "a" None (Some (JArr [JNum 1; JNum 2]))))
             empty_window in
  let w' := after (set example_host (request local "a" (Some "k") (Some (JNum 7)))) w in
  outcome (set example_host (request local "a" (Some "k") (Some (JNum 7)))) w = Return tt /\
  area local w' !! "a" = Some "[1,2]" /\
  outcome (get example_host (request local "a" (Some "k") None)) w' = Return JUndefined /\
  outcome (get example_host (request local "a" (Some "k") None)) w' <> Return (JData (JNum 7)).
Proof. vm_compute. repeat split; try reflexivity. discriminate. Qed.

(** C2, as amended, at the scenario of the specification. *)
Lemma set_item_then_get_witness :
  let w := entry local "userData"
             (JSON.stringify (JObj [("userId", JNum 123); ("name", JStr "John Doe")])) in
  let w' := after (set example_host
                     (request local "userData" (Some "name") (Some (JStr "Jane Doe")))) w in
  decoded example_host local "userData" w
  = Some (JObj [("userId", JNum 123); ("name", JStr "John Doe")]) /\
  Json.wf example_host (JNum 123) = true /\
  outcome (get example_host (request local "userData" (Some "name") None)) w'
  = Return (JData (JStr "Jane Doe")) /\
  outcome (get example_host (request local "userData" (Some "userId") None)) w'
  = outcome (get example_host (request local "userData" (Some "userId") None)) w.
Proof.
  cbv zeta. split; [vm_compute; reflexivity|]. split; [reflexivity|].
  pose proof (set_item_then_get example_host local "userData" "name" (JStr "Jane Doe")
                [("userId", JNum 123); ("name", JStr "John Doe")]
                (entry local "userData"
                   (JSON.stringify (JObj [("userId", JNum 123); ("name", JStr "John Doe")]))))
    as H.
  destruct H as (_ & Hi & Hj);
    [discriminate|discriminate|discriminate|reflexivity|reflexivity|vm_compute; reflexivity|].
  split; [exact Hi|]. apply Hj; [discriminate|discriminate|].
  intros x Hx. vm_compute in Hx. injection Hx as <-. reflexivity.
Defined.

(** C5: the text [null] is well-formed JSON, and on it both [get] and
    [remove] of an item throw. *)
Lemma get_and_remove_throw_on_null :
  let w := entry local "x" "null" in
  JSON.parse example_host "null" = Some JNull /\
  outcome (get example_host (request local "x" (Some "a") None)) w = Throw TypeError /\
  outcome (remove example_host (request local "x" (Some "a") None)) w = Throw TypeError.
Proof. vm_compute. repeat split; reflexivity. Qed.

(** C5, as amended, at an object without the item. *)
Lemma get_remove_without_target_witness :
  let w := entry local "u" (JSON.stringify (JObj [("a", JNum 1)])) in
  decoded example_host local "u" w = Some (JObj [("a", JNum 1)]) /\
  lacks example_host (JObj [("a", JNum 1)]) "b" /\
  Json.wf example_host (JObj [("a", JNum 1)]) = true /\
  outcome (get example_host (request local "u" (Some "b") None)) w = Return JUndefined /\
  outcome (remove example_host (request local "u" (Some "b") None)) w = Return tt /\
  decoded example_host local "u"
    (after (remove example_host (request local "u" (Some "b") None)) w)
  = Some (JObj [("a", JNum 1)]).
Proof.
  cbv zeta.
  assert (Hdec : decoded example_host local "u"
                   (entry local "u" (JSON.stringify (JObj [("a", JNum 1)])))
                 = Some (JObj [("a", JNum 1)])) by (vm_compute; reflexivity).
  assert (Hlacks : lacks example_host (JObj [("a", JNum 1)]) "b")
    by (split; [reflexivity|exists KObject; split; reflexivity]).
  split; [exact Hdec|]. split; [exact Hlacks|]. split; [reflexivity|].
  destruct (proj2 (get_remove_without_target example_host local "u"
                     (entry local "u" (JSON.stringify (JObj [("a", JNum 1)])))
                     ltac:(discriminate))
              "b" (JObj [("a", JNum 1)]) ltac:(discriminate) Hdec Hlacks)
    as (Hget & Hrm & _ & Hsame).
  split; [exact Hget|]. split; [exact Hrm|]. apply Hsame. reflexivity.
Defined.

(** C6: removing an index of an array leaves [null] at that index, which is
    what [get] then returns. *)
Lemma remove_index_leaves_null :
  let w := after (set example_host (request local "a" None (Some (JArr [JNum 1; JNum 2]))))
             empty_window in
  let w' := after (remove example_host (request local "a" (Some "0") None)) w in
  outcome (remove example_host (request local "a" (Some "0") None)) w = Return tt /\
  area local w' !! "a" = Some "[null,2]" /\
  outcome (get example_host (request local "a" (Some "0") None)) w' = Return (JData JNull) /\
  outcome (get example_host (request local "a" (Some "0") None)) w' <> Return JUndefined.
Proof. vm_compute. repeat split; try reflexivity. discriminate. Qed.

(** C6, as amended, at an object with two fields. *)
Lemma remove_item_twice_witness :
  let w := entry local "u" (JSON.stringify (JObj [("a", JNum 1); ("b", JNum 2)])) in
  let rm := remove example_host (request local "u" (Some "a") None) in
  decoded example_host local "u" w = Some (JObj [("a", JNum 1); ("b", JNum 2)]) /\
  Json.wf example_host (JNum 2) = true /\
  outcome rm (after rm w) = Return tt /\
  localStorage (after rm (after rm w)) = localStorage (after rm w) /\
  outcome (get example_host (request local "u" (Some "a") None)) (after rm w)
  = Return JUndefined /\
  outcome (get example_host (request local "u" (Some "b") None)) (after rm w)
  = outcome (get example_host (request local "u" (Some "b") None)) w.
Proof.
  cbv zeta. split; [vm_compute; reflexivity|]. split; [reflexivity|].
  pose proof (remove_item_twice example_host local "u" "a" [("a", JNum 1); ("b", JNum 2)]
                (entry local "u" (JSON.stringify (JObj [("a", JNum 1); ("b", JNum 2)]))))
    as H.
  destruct H as (_ & H2 & Hl & _ & Hi & Hj);
    [discriminate|discriminate|vm_compute; reflexivity|].
  split; [exact H2|]. split; [exact Hl|]. split; [exact Hi|].
  apply Hj; [discriminate|discriminate|].
  intros x Hx. vm_compute in Hx. injection Hx as <-. reflexivity.
Defined.

(** C10: on the number [5] the item-qualified [set] is not silent: it throws
    after its read, and no write follows. *)
Lemma set_item_on_number_throws :
  let w := after (set example_host (request local "n" None (Some (JNum 5)))) empty_window in
  let w' := after (set example_host (request local "n" (Some "a") (Some (JNum 1)))) w in
  decoded example_host local "n" w = Some (JNum 5) /\
  outcome (set example_host (request local "n" (Some "a") (Some (JNum 1)))) w = Throw TypeError /\
  outcome (set example_host (request local "n" (Some "a") (Some (JNum 1)))) w <> Return tt /\
  calls w' = calls w ++ [GetItem local "n"].
Proof. vm_compute. repeat split; try reflexivity. discriminate. Qed.

(** C10, as amended, at the number [5]. *)
Lemma set_item_on_primitive_witness :
  let w := entry local "n" "5" in
  decoded example_host local "n" w = Some (JNum 5) /\
  outcome (set example_host (request local "n" (Some "a") (Some (JNum 1)))) w
  = Throw TypeError /\
  localStorage (after (set example_host (request local "n" (Some "a") (Some (JNum 1)))) w)
  = localStorage w.
Proof.
  cbv zeta. split; [vm_compute; reflexivity|].
  pose proof (set_item_on_primitive example_host local "n" "a" (JNum 1) (JNum 5)
                (entry local "n" "5")) as H.
  destruct H as (Ho & _ & Hl & _);
    [discriminate|discriminate|discriminate|reflexivity|vm_compute; reflexivity|reflexivity|].
  split; [exact Ho|exact Hl].
Defined.

(** * Further properties of the operations *)

(** ** More on property lists *)

Module JsonMore.
Import Json.

Lemma erase_place i k v fields :
  lookup k fields = None -> erase k (place i k v fields) = fields.
Proof.
  induction fields as [|[k' v'] fields IH]; cbn [place lookup erase].
  - now rewrite String.eqb_refl.
  - destruct (String.eqb k k') eqn:E; [discriminate|]. intros Hnone.
    destruct (array_index k'); [destruct (i <? n)|]; cbn [erase];
      rewrite ?String.eqb_refl, ?E; cbn [erase]; rewrite ?E;
      rewrite ?IH, ?JsonFacts.erase_absent by assumption; reflexivity.
Qed.

Lemma erase_append k v fields :
  lookup k fields = None -> erase k (fields ++ [(k, v)]) = fields.
Proof.
  induction fields as [|[k' v'] fields IH]; cbn [app lookup erase].
  - now rewrite String.eqb_refl.
  - destruct (String.eqb k k'); [discriminate|]. intros Hnone. now rewrite IH.
Qed.

(** Removing a property that was just added gives the list back. *)
Lemma erase_update_new k v fields :
  lookup k fields = None -> erase k (update k v fields) = fields.
Proof.
  intros Hnone. unfold update. rewrite Hnone.
  destruct (array_index k); [now apply erase_place|now apply erase_append].
Qed.





End JsonMore.

(** ** One step of each method of the bound accessor *)

Section ChainSteps.
Variable host : Host.
Implicit Types (t : StorageType) (w : window) (c : accessor).

#[local] Arguments JSON.parse : simpl never.
#[local] Arguments JSON.stringify : simpl never.

Lemma chain_get_step c t i w :
  storage c = Some t ->
  chain_get host c i w =
  (match decoded host t (key_of (bound_name c)) w with
   | Some r => if truthy_string i then get_prop host r (key_of i) else Return (JData r)
   | None => Throw SyntaxError
   end, read t (key_of (bound_name c)) w).
Proof.
  destruct c as [st nm]. cbn [storage bound_name]. intros ->.
  unfold chain_get, decoded, read, bind, lift, ret, getItem, JSON_parse.
  cbn [storage bound_name fst snd].
  destruct (JSON.parse _ _); [destruct (truthy_string i)|]; reflexivity.
Qed.

Lemma chain_set_step c t i v w :
  storage c = Some t ->
  chain_set host c i v w =
  match decoded host t (key_of (bound_name c)) w with
  | None => (Throw SyntaxError, read t (key_of (bound_name c)) w)
  | Some r =>
      match set_prop host r (key_of i) v with
      | Return r' => (Return this, written t (key_of (bound_name c)) (JSON.stringify r') w)
      | Throw e => (Throw e, read t (key_of (bound_name c)) w)
      end
  end.
Proof.
  destruct c as [st nm]. cbn [storage bound_name]. intros ->.
  unfold chain_set, decoded, read, written, bind, lift, ret, getItem, setItem,
    JSON_parse, JSON_stringify.
  cbn [storage bound_name fst snd].
  destruct (JSON.parse _ _); [|reflexivity].
  destruct (set_prop _ _ _ _); reflexivity.
Qed.

Lemma chain_remove_step c t i w :
  storage c = Some t ->
  chain_remove host c i w =
  match decoded host t (key_of (bound_name c)) w with
  | None => (Throw SyntaxError, read t (key_of (bound_name c)) w)
  | Some r =>
      match delete_prop host r (key_of i) with
      | Return r' => (Return this, written t (key_of (bound_name c)) (JSON.stringify r') w)
      | Throw e => (Throw e, read t (key_of (bound_name c)) w)
      end
  end.
Proof.
  destruct c as [st nm]. cbn [storage bound_name]. intros ->.
  unfold chain_remove, decoded, read, written, bind, lift, ret, getItem, setItem,
    JSON_parse, JSON_stringify.
  cbn [storage bound_name fst snd].
  destruct (JSON.parse _ _); [|reflexivity].
  destruct (delete_prop _ _ _); reflexivity.
Qed.

Lemma chain_clear_step c t w :
  storage c = Some t ->
  chain_clear c w =
  (Return this, with_area t (delete (key_of (bound_name c)))
                  (RemoveItem t (key_of (bound_name c))) w).
Proof. destruct c as [st nm]. cbn [storage bound_name]. intros ->. reflexivity. Qed.

Lemma area_read t n w : area t (read t n w) = area t w.
Proof. unfold read. now rewrite area_with_area. Qed.

Lemma area_read_other t n w : area (other t) (read t n w) = area (other t) w.
Proof. unfold read. now rewrite area_with_area_other. Qed.

Lemma area_written t n text w : area t (written t n text w) = <[n := text]> (area t w).
Proof. unfold written. now rewrite area_with_area, area_read. Qed.

Lemma area_written_other t n text w :
  area (other t) (written t n text w) = area (other t) w.
Proof. unfold written. now rewrite area_with_area_other, area_read_other. Qed.



End ChainSteps.

(** ** What the operations change *)

Section Effects.
Variable host : Host.
Implicit Types (t : StorageType) (w : window) (n : string) (c : accessor).

#[local] Arguments JSON.parse : simpl never.
#[local] Arguments JSON.stringify : simpl never.

Lemma set_falsy t n i (v : option json) w :
  truthy v = false -> set host (request t n i v) w = (Throw (missing "value"), w) \/
                      set host (request t n i v) w = (Throw (missing "name"), w).
Proof.
  intros Hv. destruct n as [|ch n]; [right; reflexivity|left].
  unfold set, request, bind, lift.
  cbn [ensureParams prop_truthy type name item value String.eqb Ascii.eqb Bool.eqb
       truthy_string].
  now rewrite Hv.
Qed.

(** The window after [set] is the window before, or that after its read, or
    that after its read and its write under the same name. *)
Lemma set_after_cases t n i v w :
  after (set host (request t n i v)) w = w \/
  after (set host (request t n i v)) w = read t n w \/
  exists text, after (set host (request t n i v)) w = written t n text w.
Proof.
  unfold after. destruct (truthy v) eqn:Hv.
  - destruct n as [|ch n]; [left; reflexivity|]. destruct v as [v|]; [|discriminate].
    rewrite set_step by (assumption || discriminate).
    destruct (decoded _ _ _ _); [|right; left; reflexivity].
    destruct (truthy_string i); [|right; right; eexists; reflexivity].
    destruct (set_prop _ _ _ _); [right; right; eexists; reflexivity|right; left; reflexivity].
  - left. destruct (set_falsy t n i v w Hv) as [-> | ->]; reflexivity.
Qed.

Lemma remove_after_cases t n i v w :
  after (remove host (request t n i v)) w = w \/
  after (remove host (request t n i v)) w = read t n w \/
  (exists text, after (remove host (request t n i v)) w = written t n text w) \/
  after (remove host (request t n i v)) w = with_area t (delete n) (RemoveItem t n) w.
Proof.
  unfold after. destruct n as [|ch n]; [left; reflexivity|].
  rewrite remove_step by discriminate.
  destruct (truthy_string i); [|right; right; right; reflexivity].
  destruct (decoded _ _ _ _); [|right; left; reflexivity].
  destruct (delete_prop _ _ _);
    [right; right; left; eexists; reflexivity|right; left; reflexivity].
Qed.

(** X1. [get], and the [get] of a bound accessor, never change a stored
    entry, whatever the request and whether they return or throw. *)
Theorem get_never_writes props c (i : option string) w :
  (localStorage (after (get host props) w) = localStorage w /\
   sessionStorage (after (get host props) w) = sessionStorage w) /\
  (localStorage (after (chain_get host c i) w) = localStorage w /\
   sessionStorage (after (chain_get host c i) w) = sessionStorage w).
Proof.
  split.
  - destruct props as [[t|] [[|ch n]|] it v]; try (split; reflexivity).
    change {| type := Some t; name := Some (String ch n); item := it; value := v |}
      with (request t (String ch n) it v).
    unfold after. rewrite get_step by discriminate. cbn [snd].
    apply with_area_id_stores.
  - destruct (storage c) as [t|] eqn:Hst.
    + unfold after. rewrite (chain_get_step host c t i w Hst). cbn [snd].
      apply with_area_id_stores.
    + destruct c as [st nm]. cbn [storage] in Hst. subst st. split; reflexivity.
Qed.

(** X2. [set] and [remove] on one name leave every entry under another name
    of the same namespace, and the whole other namespace, as they were,
    whatever the item and the value and whether they return or throw. *)
Theorem only_the_named_entry_changes t n i v w n' :
  n' <> n ->
  (area t (after (set host (request t n i v)) w) !! n' = area t w !! n' /\
   area (other t) (after (set host (request t n i v)) w) = area (other t) w) /\
  (area t (after (remove host (request t n i v)) w) !! n' = area t w !! n' /\
   area (other t) (after (remove host (request t n i v)) w) = area (other t) w).
Proof.
  intros Hne. split.
  - destruct (set_after_cases t n i v w) as [-> | [-> | [text ->]]].
    + split; reflexivity.
    + now rewrite area_read, area_read_other.
    + rewrite area_written, area_written_other, lookup_insert_ne by congruence.
      split; reflexivity.
  - destruct (remove_after_cases t n i v w) as [-> | [-> | [[text ->] | ->]]].
    + split; reflexivity.
    + now rewrite area_read, area_read_other.
    + rewrite area_written, area_written_other, lookup_insert_ne by congruence.
      split; reflexivity.
    + rewrite area_with_area, area_with_area_other, lookup_delete_ne by congruence.
      split; reflexivity.
Qed.

(** X3. An entry whose text does not decode makes [get], [set] (with or
    without an item: the old text is decoded before it is replaced) and
    [remove] with an item throw a [SyntaxError], and the entry stays as it
    is. *)
Theorem undecodable_entry_blocks t n i (j : string) v w :
  n <> EmptyString -> j <> EmptyString -> truthy (Some v) = true ->
  decoded host t n w = None ->
  outcome (get host (request t n i None)) w = Throw SyntaxError /\
  outcome (set host (request t n i (Some v))) w = Throw SyntaxError /\
  outcome (remove host (request t n (Some j) None)) w = Throw SyntaxError /\
  area t (after (set host (request t n i (Some v))) w) = area t w /\
  area t (after (remove host (request t n (Some j) None)) w) = area t w.
Proof.
  intros Hn Hj Hv Hdec. unfold outcome, after.
  rewrite get_step, set_step, remove_step, Hdec, (truthy_string_nonempty j) by assumption.
  cbn [fst snd]. rewrite area_read. repeat split; reflexivity.
Qed.

(** X4. [remove] without an item deletes the entry whatever its text, also
    one that does not decode; it never throws, and [get] on the name then
    returns the empty mapping. *)
Theorem remove_without_item_deletes_entry t n v w :
  n <> EmptyString ->
  let w' := after (remove host (request t n None v)) w in
  outcome (remove host (request t n None v)) w = Return tt /\
  area t w' !! n = None /\
  outcome (get host (request t n None None)) w' = Return (JData (JObj [])).
Proof.
  intros Hn. unfold outcome, after. cbv zeta.
  rewrite remove_step by assumption. cbn [truthy_string fst snd].
  rewrite get_step by assumption. unfold decoded.
  rewrite area_with_area, lookup_delete_eq. repeat split; reflexivity.
Qed.

(** X5. An entry whose text is the empty string reads as no entry: [get]
    returns the empty mapping, and [set] with an item stores a Record with
    that one field. *)
Theorem empty_text_is_no_entry t n (i : string) v w :
  n <> EmptyString -> i <> EmptyString -> i <> "__proto__" ->
  truthy (Some v) = true -> Json.wf host v = true ->
  area t w !! n = Some EmptyString ->
  outcome (get host (request t n None None)) w = Return (JData (JObj [])) /\
  outcome (get host (request t n None None))
    (after (set host (request t n (Some i) (Some v))) w) = Return (JData (JObj [(i, v)])).
Proof.
  intros Hn Hi Hproto Hv Hwf Hempty. unfold outcome, after.
  assert (Hdec : decoded host t n w = Some (JObj [])) by (unfold decoded; now rewrite Hempty).
  rewrite set_step, get_step, Hdec, (truthy_string_nonempty i) by assumption.
  cbn [truthy_string set_prop key_of Json.lookup fst snd].
  apply String.eqb_neq in Hproto as ->. cbn [fst snd].
  assert (Hone : Json.update i v [] = [(i, v)])
    by (unfold Json.update; cbn [Json.lookup Json.place app]; now destruct (array_index i)).
  rewrite Hone, get_step, decoded_written_wf; [split; reflexivity| |assumption].
  cbn [Json.wf map fst snd forallb Json.distinct Json.ordered existsb]. now rewrite Hwf.
Qed.

End Effects.

(** ** The bound accessor *)

Section Chain.
Variable host : Host.
Implicit Types (t : StorageType) (w : window) (n : string) (c : accessor).

#[local] Arguments JSON.parse : simpl never.
#[local] Arguments JSON.stringify : simpl never.

(** X6. The [get] of the accessor bound to a namespace and a name is the
    [get] of [StorageUtil] on that namespace and name: same result, same
    window. *)
Theorem chain_get_is_get t n (i : option string) (i0 : option string) (v v0 : option json) w :
  n <> EmptyString ->
  chain_get host (chain (request t n i0 v0)) i w = get host (request t n i v) w.
Proof.
  intros Hn. rewrite get_step by assumption.
  now rewrite (chain_get_step host (chain (request t n i0 v0)) t i w eq_refl).
Qed.

(** X7. With a name, an item and a truthy value supplied, the mutating
    methods of the bound accessor change the window as the operations of
    [StorageUtil] do, and throw when those throw: [set(item, value)] as [set]
    with that item, [remove(item)] as [remove] with that item, and [clear()]
    as [remove] without an item, which deletes one entry and not the
    namespace. *)
Theorem chain_mutators_act_as_operations t n (i : string) v (i0 : option string)
    (v0 : option json) w :
  n <> EmptyString -> i <> EmptyString -> truthy (Some v) = true ->
  let c := chain (request t n i0 v0) in
  let unit_of (r : result (option accessor)) : result unit :=
    match r with Return _ => Return tt | Throw e => Throw e end in
  (after (chain_set host c (Some i) (Some v)) w
   = after (set host (request t n (Some i) (Some v))) w /\
   unit_of (outcome (chain_set host c (Some i) (Some v)) w)
   = outcome (set host (request t n (Some i) (Some v))) w) /\
  (after (chain_remove host c (Some i)) w
   = after (remove host (request t n (Some i) None)) w /\
   unit_of (outcome (chain_remove host c (Some i)) w)
   = outcome (remove host (request t n (Some i) None)) w) /\
  (after (chain_clear c) w = after (remove host (request t n None None)) w /\
   unit_of (outcome (chain_clear c) w)
   = outcome (remove host (request t n None None)) w).
Proof.
  intros Hn Hi Hv. cbv zeta. unfold outcome, after.
  rewrite set_step, !remove_step, (truthy_string_nonempty i) by assumption.
  rewrite (chain_set_step host (chain (request t n i0 v0)) t (Some i) (Some v) w eq_refl).
  rewrite (chain_remove_step host (chain (request t n i0 v0)) t (Some i) w eq_refl).
  rewrite (chain_clear_step (chain (request t n i0 v0)) t w eq_refl).
  cbn [chain request type name bound_name key_of truthy_string].
  destruct (decoded host t n w) as [r|]; [|repeat split; reflexivity].
  destruct (set_prop host r i (Some v)), (delete_prop host r i); repeat split; reflexivity.
Qed.

(** X8. The [set] of a bound accessor checks nothing: on a Record that is
    an object it assigns the value, falsy or not, under the item, empty or
    not ([undefined] names the field [undefined]), where [set] of
    [StorageUtil] rejects a falsy value and takes an empty item for none.
    When JSON text holds the Record and the value without loss, the Record
    afterwards is the Record before with that field set. *)
Theorem chain_set_checks_nothing c t (i : option string) v fields w :
  storage c = Some t ->
  decoded host t (key_of (bound_name c)) w = Some (JObj fields) ->
  key_of i <> "__proto__" -> Json.valid host v = true ->
  outcome (chain_set host c i (Some v)) w = Return None /\
  area t (after (chain_set host c i (Some v)) w) !! key_of (bound_name c)
  = Some (JSON.stringify (JObj (Json.update (key_of i) v fields))) /\
  (Json.wf host (JObj fields) = true -> Json.wf host v = true ->
   decoded host t (key_of (bound_name c)) (after (chain_set host c i (Some v)) w)
   = Some (JObj (Json.update (key_of i) v fields))).
Proof.
  intros Hst Hdec Hproto _. unfold outcome, after.
  rewrite (chain_set_step host c t i (Some v) w Hst), Hdec.
  assert (Hset : set_prop host (JObj fields) (key_of i) (Some v)
                 = Return (JObj (Json.update (key_of i) v fields))).
  { cbn [set_prop]. apply String.eqb_neq in Hproto as ->.
    now destruct (Json.lookup (key_of i) fields). }
  rewrite Hset. cbn [fst snd]. split; [reflexivity|]. split.
  - now rewrite area_written, lookup_insert_eq.
  - intros Hwf0 Hwf. now apply decoded_written_wf, JsonFacts.update_wf.
Qed.

(** X9. [chain] validates nothing: built without a [type], the accessor
    holds no storage, and every method of it throws a [TypeError] (not the
    error of [ensureParams]) without a call on either storage area. *)
Theorem chain_without_type_throws_at_the_call c (i : option string) (v : option json) w :
  storage c = None ->
  chain_get host c i w = (Throw TypeError, w) /\
  chain_set host c i v w = (Throw TypeError, w) /\
  chain_remove host c i w = (Throw TypeError, w) /\
  chain_clear c w = (Throw TypeError, w).
Proof.
  destruct c as [st nm]. cbn [storage]. intros ->. repeat split; reflexivity.
Qed.

End Chain.

(** ** Operations in sequence *)

Section Sequences.
Variable host : Host.
Implicit Types (t : StorageType) (w : window) (n : string).

#[local] Arguments JSON.parse : simpl never.
#[local] Arguments JSON.stringify : simpl never.

Lemma set_item_on_object t n (i : string) v fields w :
  n <> EmptyString -> i <> EmptyString -> i <> "__proto__" ->
  truthy (Some v) = true -> decoded host t n w = Some (JObj fields) ->
  set host (request t n (Some i) (Some v)) w
  = (Return tt, written t n (JSON.stringify (JObj (Json.update i v fields))) w).
Proof.
  intros Hn Hi Hproto Hv Hdec.
  rewrite set_step, Hdec, (truthy_string_nonempty i) by assumption.
  cbn [set_prop key_of]. apply String.eqb_neq in Hproto as ->.
  now destruct (Json.lookup i fields).
Qed.

Lemma remove_item_on_object t n (i : string) v fields w :
  n <> EmptyString -> i <> EmptyString -> decoded host t n w = Some (JObj fields) ->
  remove host (request t n (Some i) v) w
  = (Return tt, written t n (JSON.stringify (JObj (Json.erase i fields))) w).
Proof.
  intros Hn Hi Hdec.
  now rewrite remove_step, Hdec, (truthy_string_nonempty i) by assumption.
Qed.

(** X10. On a Record that is an object without the item, and that JSON
    text holds without loss, [set] of the item followed by [remove] of it
    gives the Record back: [get] returns what it returned before the two
    calls. *)
Theorem set_then_remove_new_item t n (i : string) v fields w :
  n <> EmptyString -> i <> EmptyString -> i <> "__proto__" ->
  truthy (Some v) = true -> Json.wf host v = true ->
  decoded host t n w = Some (JObj fields) -> Json.wf host (JObj fields) = true ->
  Json.lookup i fields = None ->
  let w' := after (remove host (request t n (Some i) None))
              (after (set host (request t n (Some i) (Some v))) w) in
  decoded host t n w' = Some (JObj fields) /\
  outcome (get host (request t n None None)) w'
  = outcome (get host (request t n None None)) w.
Proof.
  intros Hn Hi Hproto Hv Hwf Hdec Hwf0 Hnone. cbv zeta. unfold outcome, after.
  rewrite (set_item_on_object t n i v fields w) by assumption. cbn [snd].
  rewrite (remove_item_on_object t n i None (Json.update i v fields))
    by (try assumption; apply decoded_written_wf, JsonFacts.update_wf; assumption).
  cbn [snd]. rewrite JsonMore.erase_update_new by assumption.
  rewrite !get_step, decoded_written_wf, Hdec by assumption. split; reflexivity.
Qed.


End Sequences.

(** ** The precondition check *)

(** X12. [ensureParams] returns exactly when every required parameter is
    truthy, and otherwise throws the error that names the first falsy one in
    the order of the list: a request without [type] and without [name] is
    answered with the message about [type]. *)
Theorem ensureParams_names_the_first_falsy requiredParams props :
  (ensureParams requiredParams props = Return tt <->
   forall f, In f requiredParams -> prop_truthy props f = true) /\
  (forall l1 f l2,
      requiredParams = l1 ++ f :: l2 ->
      (forall g, In g l1 -> prop_truthy props g = true) ->
      prop_truthy props f = false ->
      ensureParams requiredParams props = Throw (missing f)).
Proof.
  split.
  - induction requiredParams as [|p l IH]; cbn [ensureParams].
    + split; [intros _ f []|reflexivity].
    + destruct (prop_truthy props p) eqn:Hp.
      * rewrite IH. split.
        -- intros H f [<-|Hin]; auto.
        -- intros H f Hin. apply H. now right.
      * split; [discriminate|]. intros H. rewrite (H p) in Hp; [discriminate|now left].
  - intros l1 f l2 -> Hbefore Hf.
    induction l1 as [|g l1 IH]; cbn [app ensureParams].
    + now rewrite Hf.
    + rewrite (Hbefore g) by now left. apply IH. intros g' Hin. apply Hbefore. now right.
Qed.

(** ** Records that are not objects *)

Section OtherRecords.
Variable host : Host.
Implicit Types (t : StorageType) (w : window) (n : string).

#[local] Arguments JSON.parse : simpl never.
#[local] Arguments JSON.stringify : simpl never.

Lemma insert_wf k (v : json) (items : list json) :
  Json.wf host v = true -> forallb (Json.wf host) items = true ->
  forallb (Json.wf host) (<[k := v]> items) = true.
Proof.
  intros Hv. revert k. induction items as [|x items IH]; intros k; [reflexivity|].
  cbn [forallb]. intros [Hx Hitems]%andb_prop.
  destruct k as [|k].
  - change (<[0 := v]> (x :: items)) with (v :: items). cbn [forallb].
    now rewrite Hv, Hitems.
  - change (<[S k := v]> (x :: items)) with (x :: <[k := v]> items). cbn [forallb].
    now rewrite Hx, IH.
Qed.

(** Within the array and at its end no hole is made. *)
Lemma store_within k (v : json) (items : list json) :
  k <= length items ->
  store k v items = if k <? length items then <[k := v]> items else items ++ [v].
Proof.
  intros Hk. unfold store. destruct (Nat.ltb_spec k (length items)); [reflexivity|].
  replace (k - length items) with 0 by lia. reflexivity.
Qed.

Lemma store_wf k (v : json) (items : list json) :
  k <= length items -> Json.wf host v = true -> forallb (Json.wf host) items = true ->
  forallb (Json.wf host) (store k v items) = true.
Proof.
  intros Hk Hv Hitems. rewrite store_within by assumption. destruct (k <? length items).
  - now apply insert_wf.
  - rewrite forallb_app, Hitems. cbn [forallb]. now rewrite Hv.
Qed.

Lemma store_lookup k (v : json) (items : list json) : store k v items !! k = Some v.
Proof.
  unfold store. destruct (Nat.ltb_spec k (length items)) as [Hlt|Hge].
  - now apply list_lookup_insert_eq.
  - rewrite lookup_app_r by assumption.
    rewrite lookup_app_r by (rewrite length_replicate; lia).
    rewrite length_replicate, Nat.sub_diag. reflexivity.
Qed.

Lemma array_index_nonempty (i : string) k :
  array_index i = Some k -> i <> EmptyString /\ String.eqb i "length" = false.
Proof.
  intros H. split.
  - intros ->. discriminate.
  - apply String.eqb_neq. intros ->. discriminate.
Qed.

(** X13. On a Record that is an array held by JSON text without loss, [set]
    under an item that is an index within the array, or the index at its
    end, stores the value at that index, in place of the element or as a new
    last element, and [get] of that item then returns the value. *)
Theorem set_index_on_array t n (i : string) k v items w :
  n <> EmptyString -> array_index i = Some k -> k <= length items ->
  truthy (Some v) = true -> Json.wf host v = true ->
  decoded host t n w = Some (JArr items) -> Json.wf host (JArr items) = true ->
  let w' := after (set host (request t n (Some i) (Some v))) w in
  outcome (set host (request t n (Some i) (Some v))) w = Return tt /\
  decoded host t n w'
  = Some (JArr (if k <? length items then <[k := v]> items else items ++ [v])) /\
  outcome (get host (request t n (Some i) None)) w' = Return (JData v).
Proof.
  intros Hn Hk Hle Hv Hwf Hdec Hwf0. cbv zeta. unfold outcome, after.
  destruct (array_index_nonempty i k Hk) as [Hi Hlen].
  assert (Hwf' : Json.wf host (JArr (store k v items)) = true).
  { cbn [Json.wf]. now apply store_wf. }
  rewrite set_step, Hdec, (truthy_string_nonempty i) by assumption.
  cbn [set_prop key_of element]. rewrite Hlen, Hk. cbn [fst snd].
  rewrite get_step, decoded_written_wf, (truthy_string_nonempty i) by assumption.
  cbn [get_prop key_of]. rewrite Hlen, Hk, store_lookup, store_within by assumption.
  repeat split; reflexivity.
Qed.

(** X14. On a Record that is an array, [set] under an item that is neither
    an index nor [length] returns but stores no field: what is written is the
    text of the array as it was decoded, and [get] of the item finds nothing
    of its own. When JSON text holds the array without loss, the Record is
    the same array afterwards. *)
Theorem named_item_on_array_is_dropped t n (i : string) v items w :
  n <> EmptyString -> i <> EmptyString -> i <> "length" -> array_index i = None ->
  truthy (Some v) = true ->
  decoded host t n w = Some (JArr items) ->
  let w' := after (set host (request t n (Some i) (Some v))) w in
  outcome (set host (request t n (Some i) (Some v))) w = Return tt /\
  area t w' !! n = Some (JSON.stringify (JArr items)) /\
  outcome (get host (request t n (Some i) None)) w' = Return (inherited host KArray i) /\
  (Json.wf host (JArr items) = true -> decoded host t n w' = Some (JArr items)).
Proof.
  intros Hn Hi Hlen Hidx Hv Hdec. cbv zeta. unfold outcome, after.
  apply String.eqb_neq in Hlen.
  rewrite set_step, Hdec, (truthy_string_nonempty i) by assumption.
  cbn [set_prop key_of]. rewrite Hlen, Hidx. cbn [fst snd].
  rewrite get_step, decoded_written, (truthy_string_nonempty i)
    by (try assumption; apply (decoded_valid _ _ _ _ _ Hdec)).
  cbn [Json.norm get_prop key_of]. rewrite Hlen, Hidx.
  rewrite area_written, lookup_insert_eq. repeat split; try reflexivity.
  intros Hwf. pose proof (JsonFacts.wf_norm host (JArr items) Hwf) as E.
  cbn [Json.norm] in E. now rewrite E.
Qed.

(** X15. On a Record that is [null], [get], [set] and [remove] with an item
    throw a [TypeError], and the entry stays as it is; without an item they
    do not look into the Record and return. *)
Theorem item_on_null_throws t n (i : string) v w :
  n <> EmptyString -> i <> EmptyString -> truthy (Some v) = true ->
  decoded host t n w = Some JNull ->
  outcome (get host (request t n (Some i) None)) w = Throw TypeError /\
  outcome (set host (request t n (Some i) (Some v))) w = Throw TypeError /\
  outcome (remove host (request t n (Some i) None)) w = Throw TypeError /\
  area t (after (set host (request t n (Some i) (Some v))) w) = area t w /\
  area t (after (remove host (request t n (Some i) None)) w) = area t w /\
  outcome (get host (request t n None None)) w = Return (JData JNull) /\
  outcome (set host (request t n None (Some v))) w = Return tt /\
  outcome (remove host (request t n None None)) w = Return tt.
Proof.
  intros Hn Hi Hv Hdec. unfold outcome, after.
  rewrite !get_step, !set_step, !remove_step, Hdec, (truthy_string_nonempty i) by assumption.
  cbn [get_prop set_prop delete_prop truthy_string fst snd]. rewrite area_read.
  repeat split; reflexivity.
Qed.

End OtherRecords.

(** ** The further properties at concrete requests *)

(** The whole-Record round trip, over an entry that held another Record. *)
Lemma set_then_get_witness :
  decoded example_host local "u" (entry local "u" "[1,2]") = Some (JArr [JNum 1; JNum 2]) /\
  outcome (get example_host (request local "u" None None))
    (after (set example_host (request local "u" None (Some (JObj [("a", JBool true)]))))
       (entry local "u" "[1,2]"))
  = Return (JData (JObj [("a", JBool true)])).
Proof.
  split; [vm_compute; reflexivity|].
  refine (proj2 (set_then_get example_host local "u" (JObj [("a", JBool true)])
                   (JArr [JNum 1; JNum 2]) (entry local "u" "[1,2]") _ _ _ _));
    [discriminate|reflexivity|reflexivity|vm_compute; reflexivity].
Defined.

Lemma only_the_named_entry_changes_witness :
  "b" <> "a" /\
  area local (after (set example_host (request local "a" None (Some (JNum 1))))
                (entry local "b" "[1,2]")) !! "b"
  = area local (entry local "b" "[1,2]") !! "b".
Proof.
  split; [discriminate|].
  refine (proj1 (proj1 (only_the_named_entry_changes example_host local "a" None
                          (Some (JNum 1)) (entry local "b" "[1,2]") "b" _))).
  discriminate.
Defined.

Lemma undecodable_entry_blocks_witness :
  decoded example_host local "x" (entry local "x" "{") = None /\
  outcome (set example_host (request local "x" None (Some (JNum 1)))) (entry local "x" "{")
  = Throw SyntaxError.
Proof.
  split; [vm_compute; reflexivity|].
  refine (proj1 (proj2 (undecodable_entry_blocks example_host local "x" None "a" (JNum 1)
                          (entry local "x" "{") _ _ _ _)));
    [discriminate|discriminate|reflexivity|vm_compute; reflexivity].
Defined.

Lemma remove_without_item_deletes_entry_witness :
  "x" <> EmptyString /\
  area local (after (remove example_host (request local "x" None None))
                (entry local "x" "{")) !! "x" = None.
Proof.
  split; [discriminate|].
  refine (proj1 (proj2 (remove_without_item_deletes_entry example_host local "x" None
                          (entry local "x" "{") _))).
  discriminate.
Defined.

Lemma empty_text_is_no_entry_witness :
  area local (entry local "x" EmptyString) !! "x" = Some EmptyString /\
  outcome (get example_host (request local "x" None None))
    (after (set example_host (request local "x" (Some "a") (Some (JNum 1))))
       (entry local "x" EmptyString))
  = Return (JData (JObj [("a", JNum 1)])).
Proof.
  split; [reflexivity|].
  refine (proj2 (empty_text_is_no_entry example_host local "x" "a" (JNum 1)
                   (entry local "x" EmptyString) _ _ _ _ _ _));
    [discriminate|discriminate|discriminate|reflexivity|reflexivity|reflexivity].
Defined.

Lemma chain_get_is_get_witness :
  "userData" <> EmptyString /\
  chain_get example_host (chain (request local "userData" None None)) (Some "userId")
    (entry local "userData" (JSON.stringify (JObj [("userId", JNum 123)])))
  = get example_host (request local "userData" (Some "userId") None)
      (entry local "userData" (JSON.stringify (JObj [("userId", JNum 123)]))).
Proof.
  split; [discriminate|].
  apply (chain_get_is_get example_host local "userData" (Some "userId") None None None).
  discriminate.
Defined.

Lemma chain_mutators_act_as_operations_witness :
  truthy (Some (JNum 456)) = true /\
  after (chain_set example_host (chain (request local "userData" None None))
           (Some "userId") (Some (JNum 456))) empty_window
  = after (set example_host (request local "userData" (Some "userId") (Some (JNum 456))))
      empty_window.
Proof.
  split; [reflexivity|].
  refine (proj1 (proj1 (chain_mutators_act_as_operations example_host local "userData"
                          "userId" (JNum 456) None None empty_window _ _ _)));
    [discriminate|discriminate|reflexivity].
Defined.

(** The falsy value [0] under the empty item, which [set] would reject. *)
Lemma chain_set_checks_nothing_witness :
  decoded example_host local "cart" empty_window = Some (JObj []) /\
  Json.valid example_host (JNum 0) = true /\
  Json.wf example_host (JNum 0) = true /\
  decoded example_host local "cart"
    (after (chain_set example_host (chain (request local "cart" None None))
              (Some EmptyString) (Some (JNum 0))) empty_window)
  = Some (JObj (Json.update EmptyString (JNum 0) [])).
Proof.
  split; [reflexivity|]. split; [reflexivity|]. split; [reflexivity|].
  refine (proj2 (proj2 (chain_set_checks_nothing example_host
                          (chain (request local "cart" None None)) local (Some EmptyString)
                          (JNum 0) [] empty_window _ _ _ _)) _ _);
    [reflexivity|reflexivity|discriminate|reflexivity|reflexivity|reflexivity].
Defined.

Lemma chain_without_type_throws_at_the_call_witness :
  storage (chain {| type := None; name := Some "x"; item := None; value := None |}) = None /\
  chain_set example_host
    (chain {| type := None; name := Some "x"; item := None; value := None |})
    (Some "a") (Some (JNum 1)) empty_window
  = (Throw TypeError, empty_window).
Proof.
  split; [reflexivity|].
  refine (proj1 (proj2 (chain_without_type_throws_at_the_call example_host
                          (chain {| type := None; name := Some "x"; item := None;
                                    value := None |})
                          (Some "a") (Some (JNum 1)) empty_window _))).
  reflexivity.
Defined.

Lemma set_then_remove_new_item_witness :
  let w := entry local "u" (JSON.stringify (JObj [("a", JNum 1)])) in
  decoded example_host local "u" w = Some (JObj [("a", JNum 1)]) /\
  Json.wf example_host (JObj [("a", JNum 1)]) = true /\
  Json.lookup "b" [("a", JNum 1)] = None /\
  decoded example_host local "u"
    (after (remove example_host (request local "u" (Some "b") None))
       (after (set example_host (request local "u" (Some "b") (Some (JNum 2)))) w))
  = Some (JObj [("a", JNum 1)]).
Proof.
  cbv zeta. split; [vm_compute; reflexivity|]. split; [reflexivity|]. split; [reflexivity|].
  refine (proj1 (set_then_remove_new_item example_host local "u" "b" (JNum 2)
                   [("a", JNum 1)]
                   (entry local "u" (JSON.stringify (JObj [("a", JNum 1)]))) _ _ _ _ _ _ _ _));
    [discriminate|discriminate|discriminate|reflexivity|reflexivity
    |vm_compute; reflexivity|reflexivity|reflexivity].
Defined.


(** A request without [type] and without [name]: the message is about
    [type]. *)
Lemma ensureParams_names_the_first_falsy_witness :
  prop_truthy {| type := None; name := None; item := None; value := None |} "type" = false /\
  ensureParams ["type"; "name"] {| type := None; name := None; item := None; value := None |}
  = Throw (missing "type").
Proof.
  split; [reflexivity|].
  refine (proj2 (ensureParams_names_the_first_falsy ["type"; "name"]
                   {| type := None; name := None; item := None; value := None |})
            [] "type" ["name"] _ _ _); [reflexivity|intros g []|reflexivity].
Defined.

Lemma set_index_on_array_witness :
  let w := entry local "a" "[1,2]" in
  array_index "2" = Some 2 /\
  decoded example_host local "a" w = Some (JArr [JNum 1; JNum 2]) /\
  Json.wf example_host (JArr [JNum 1; JNum 2]) = true /\
  decoded example_host local "a"
    (after (set example_host (request local "a" (Some "2") (Some (JNum 7)))) w)
  = Some (JArr [JNum 1; JNum 2; JNum 7]).
Proof.
  cbv zeta. split; [reflexivity|]. split; [vm_compute; reflexivity|]. split; [reflexivity|].
  refine (proj1 (proj2 (set_index_on_array example_host local "a" "2" 2 (JNum 7)
                          [JNum 1; JNum 2] (entry local "a" "[1,2]") _ _ _ _ _ _ _)));
    [discriminate|reflexivity|simpl; lia|reflexivity|reflexivity
    |vm_compute; reflexivity|reflexivity].
Defined.

Lemma named_item_on_array_is_dropped_witness :
  let w := entry local "a" "[1,2]" in
  array_index "k" = None /\
  decoded example_host local "a" w = Some (JArr [JNum 1; JNum 2]) /\
  Json.wf example_host (JArr [JNum 1; JNum 2]) = true /\
  decoded example_host local "a"
    (after (set example_host (request local "a" (Some "k") (Some (JNum 7)))) w)
  = Some (JArr [JNum 1; JNum 2]).
Proof.
  cbv zeta. split; [reflexivity|]. split; [vm_compute; reflexivity|]. split; [reflexivity|].
  refine (proj2 (proj2 (proj2 (named_item_on_array_is_dropped example_host local "a" "k"
                                 (JNum 7) [JNum 1; JNum 2] (entry local "a" "[1,2]")
                                 _ _ _ _ _ _))) _);
    [discriminate|discriminate|discriminate|reflexivity|reflexivity
    |vm_compute; reflexivity|reflexivity].
Defined.

Lemma item_on_null_throws_witness :
  decoded example_host local "x" (entry local "x" "null") = Some JNull /\
  outcome (set example_host (request local "x" (Some "a") (Some (JNum 1))))
    (entry local "x" "null") = Throw TypeError.
Proof.
  split; [vm_compute; reflexivity|].
  refine (proj1 (proj2 (item_on_null_throws example_host local "x" "a" (JNum 1)
                          (entry local "x" "null") _ _ _ _)));
    [discriminate|discriminate|reflexivity|vm_compute; reflexivity].
Defined.
